(** * SPDX header maintenance: a model of [scripts/copyright-check.py]

    The script rewrites the copyright header of source files.  Its logic
    sits in five functions, all embedded here:
    [normalize_license], [get_file_type], [get_updated_years],
    [update_or_insert_header] and [process_file].

    Python strings are sequences of code points; this development
    covers texts whose code points lie in U+0000..U+00FF and represents
    a code point by an [ascii] value, a string by a [list ascii].  The
    regular expressions of the script are embedded as a syntax tree and
    run by a backtracking matcher with the priorities of Python's [re]
    module; [Pattern.sub] is modelled together with its treatment of
    the replacement string as a template.  Paths are POSIX paths
    ([os.path] is [posixpath]) and the line separator is that of POSIX
    ([os.linesep] is a newline); files are opened in text mode, which
    translates line ends.  The module-level constant
    [CURRENT_YEAR] is an explicit argument, and an exception is the
    result [None]. *)

From Stdlib Require Import List Ascii String Bool Arith NArith ZArith Lia.
From Stdlib Require Import DecimalString.
Import ListNotations.

Local Open Scope string_scope.
Local Open Scope list_scope.

(** ** Texts *)

Definition text := list ascii.

(** The text of a string literal. *)
Definition T (s : string) : text := list_ascii_of_string s.

Definition nl : ascii := "010"%char.
Definition backslash : ascii := "\"%char.

Definition code (c : ascii) : N := N_of_ascii c.

Definition between (lo hi : N) (c : ascii) : bool :=
  ((lo <=? code c) && (code c <=? hi))%N.

Fixpoint text_eqb (a b : text) : bool :=
  match a, b with
  | [], [] => true
  | x :: a', y :: b' => Ascii.eqb x y && text_eqb a' b'
  | _, _ => false
  end.

(** [c in s] for a one-character needle. *)
Definition contains (c : ascii) (s : text) : bool := existsb (Ascii.eqb c) s.

(** [str.isspace] on U+0000..U+00FF, which is also the class [\s]. *)
Definition is_space (c : ascii) : bool :=
  between 9 13 c || between 28 32 c || (code c =? 133)%N || (code c =? 160)%N.

(** Decimal digits, the class [\d]. *)
Definition is_digit (c : ascii) : bool := between 48 57 c.

Definition is_octdigit (c : ascii) : bool := between 48 55 c.

Definition is_ascii_letter (c : ascii) : bool :=
  between 65 90 c || between 97 122 c.

(** [str.lower] on one code point of U+0000..U+00FF. *)
Definition lower_char (c : ascii) : ascii :=
  if between 65 90 c || (between 192 222 c && negb (code c =? 215)%N)
  then ascii_of_N (code c + 32)
  else c.

Definition lower (s : text) : text := map lower_char s.

Fixpoint lstrip (s : text) : text :=
  match s with
  | c :: s' => if is_space c then lstrip s' else s
  | [] => []
  end.

Definition rstrip (s : text) : text := rev (lstrip (rev s)).

(** [str.strip()] *)
Definition strip (s : text) : text := rstrip (lstrip s).

(** [str.split(sep)] for a one-character separator. *)
Fixpoint split (sep : ascii) (s : text) : list text :=
  match s with
  | [] => [[]]
  | c :: s' =>
      if Ascii.eqb c sep then [] :: split sep s'
      else match split sep s' with
           | h :: r => (c :: h) :: r
           | [] => [[c]]
           end
  end.

(** [str(n)] for a non-negative integer. *)
Definition str (n : N) : text := T (NilEmpty.string_of_uint (N.to_uint n)).

(** [dict.get(key, default)] on a dictionary literal, kept as the list of
    its items. *)
Fixpoint dict_get {V : Type} (d : list (string * V)) (key : text) (default : V) : V :=
  match d with
  | [] => default
  | (k, v) :: d' => if text_eqb (T k) key then v else dict_get d' key default
  end.

(** ** License names *)

Definition LICENSE_NAME_MAP : list (string * string) :=
  [ ("Apache License, Version 2.0", "Apache-2.0");
    ("Apache 2.0", "Apache-2.0");
    ("MIT", "MIT");
    ("GPL v3", "GPL-3.0-only");
    ("GPLv3", "GPL-3.0-only") ]%string.

Definition normalize_license (name fallback : text) : text :=
  dict_get (map (fun kv => (fst kv, T (snd kv))) LICENSE_NAME_MAP) (strip name) fallback.

(** ** File types *)

Inductive file_type : Set := java | python | xml.

Definition EXTENSION_MAP : list (string * file_type) :=
  [ (".java", java); (".kt", java); (".kts", java); (".js", java);
    (".ts", java); (".c", java); (".cpp", java); (".h", java);
    (".hpp", java); (".css", java);
    (".py", python); (".sh", python); (".yaml", python); (".yml", python);
    (".toml", python); (".conf", python); (".properties", python);
    (".xml", xml); (".html", xml); (".xhtml", xml); (".svg", xml) ]%string.

(** [str.rfind] for a one-character needle: the last index, or -1. *)
Fixpoint rfind_from (c : ascii) (p : text) (i last : Z) : Z :=
  match p with
  | [] => last
  | x :: p' => rfind_from c p' (i + 1)%Z (if Ascii.eqb x c then i else last)
  end.

Definition rfind (c : ascii) (p : text) : Z := rfind_from c p 0%Z (-1)%Z.

(** [p[i:j]] for indices within range. *)
Definition slice (p : text) (i j : Z) : text :=
  firstn (Z.to_nat (j - i)) (skipn (Z.to_nat i) p).

(** [os.path.splitext] of [posixpath]: the extension starts at the last
    dot, provided that dot comes after the last slash and some character
    of the file name before it is not a dot. *)
Definition splitext (p : text) : text * text :=
  let sepIndex := rfind "/" p in
  let dotIndex := rfind "." p in
  if (sepIndex <? dotIndex)%Z
     && existsb (fun c => negb (Ascii.eqb c ".")) (slice p (sepIndex + 1) dotIndex)
  then (firstn (Z.to_nat dotIndex) p, skipn (Z.to_nat dotIndex) p)
  else (p, []).

Definition get_file_type (file_path : text) : file_type :=
  let ext := lower (snd (splitext file_path)) in
  dict_get EXTENSION_MAP ext java.

(** ** Year ranges *)

(** [None] stands for the [ValueError] of the tuple unpacking, raised when
    [split] does not return exactly two parts. *)
Definition get_updated_years (CURRENT_YEAR : N) (existing_years : text) : option text :=
  if contains "-" existing_years then
    match split "-" existing_years with
    | [start_year; _] => Some (start_year ++ T "-" ++ str CURRENT_YEAR)
    | _ => None
    end
  else
    Some (if negb (text_eqb existing_years (str CURRENT_YEAR))
          then existing_years ++ T "-" ++ str CURRENT_YEAR
          else existing_years).

(** ** Regular expressions

    The fragment of Python's [re] syntax that the patterns of the script
    use.  Every quantified item of those patterns is a one-character item
    (a set, a category or the dot), except the two optional groups. *)

Inductive regex : Type :=
| Eps
| Chr (c : ascii)                      (* a literal character *)
| In_ (p : ascii -> bool)              (* a set, a category, or the dot *)
| Cat (r1 r2 : regex)
| Alt (r1 r2 : regex)                  (* r1|r2 *)
| Group (i : nat) (r : regex)          (* capturing group number i *)
| Opt (r : regex)                      (* r? *)
| Repeat (lazy : bool) (lo : nat) (hi : option nat) (p : ascii -> bool).
                                       (* p{lo,hi}, p{lo,hi}? *)

(** The dot without [re.DOTALL]. *)
Definition dot (c : ascii) : bool := negb (Ascii.eqb c nl).
(** [[\s\S]] *)
Definition any (c : ascii) : bool := is_space c || negb (is_space c).
(** [[^.\n]] *)
Definition not_dot_nl (c : ascii) : bool :=
  negb (Ascii.eqb c "." || Ascii.eqb c nl).

Fixpoint lit (s : text) : regex :=
  match s with
  | [] => Eps
  | [c] => Chr c
  | c :: s' => Cat (Chr c) (lit s')
  end.

Definition plus (p : ascii -> bool) : regex := Repeat false 1 None p.
Definition exactly (n : nat) (p : ascii -> bool) : regex := Repeat false n (Some n) p.

(** Captures: the most recent binding of a group number comes first. *)
Definition captures := list (nat * text).

Fixpoint capture (g : captures) (i : nat) : option text :=
  match g with
  | [] => None
  | (j, t) :: g' => if Nat.eqb i j then Some t else capture g' i
  end.

(** The part of [s] consumed when the rest is [s']. *)
Definition span (s s' : text) : text := firstn (List.length s - List.length s') s.

Definition more (hi : option nat) : bool :=
  match hi with Some 0 => false | _ => true end.

Definition dec (hi : option nat) : option nat := option_map pred hi.

Section Matcher.

Variable ignorecase : bool.
Variable A : Type.

Definition chr_matches (c x : ascii) : bool :=
  if ignorecase then Ascii.eqb (lower_char x) (lower_char c) else Ascii.eqb x c.

(** Greedy repetition: take one more character while allowed, and give
    the characters back one by one if the continuation fails. *)
Fixpoint rep_greedy (p : ascii -> bool) (lo : nat) (hi : option nat)
         (s : text) (k : text -> option A) : option A :=
  let stop := if Nat.eqb lo 0 then k s else None in
  match s with
  | c :: s' =>
      if p c && more hi then
        match rep_greedy p (pred lo) (dec hi) s' k with
        | Some a => Some a
        | None => stop
        end
      else stop
  | [] => stop
  end.

(** Lazy repetition: try the continuation first, take one more
    character only if it fails. *)
Fixpoint rep_lazy (p : ascii -> bool) (lo : nat) (hi : option nat)
         (s : text) (k : text -> option A) : option A :=
  match (if Nat.eqb lo 0 then k s else None) with
  | Some a => Some a
  | None =>
      match s with
      | c :: s' =>
          if p c && more hi then rep_lazy p (pred lo) (dec hi) s' k else None
      | [] => None
      end
  end.

(** The backtracking matcher, in continuation-passing style: [k]
    receives the rest of the text and the captures, and the first
    alternative whose continuation succeeds wins. *)
Fixpoint rmatch (r : regex) (s : text) (g : captures)
         (k : text -> captures -> option A) : option A :=
  match r with
  | Eps => k s g
  | Chr c =>
      match s with
      | x :: s' => if chr_matches c x then k s' g else None
      | [] => None
      end
  | In_ p =>
      match s with
      | x :: s' => if p x then k s' g else None
      | [] => None
      end
  | Cat r1 r2 => rmatch r1 s g (fun s' g' => rmatch r2 s' g' k)
  | Alt r1 r2 =>
      match rmatch r1 s g k with
      | Some a => Some a
      | None => rmatch r2 s g k
      end
  | Group i r1 => rmatch r1 s g (fun s' g' => k s' ((i, span s s') :: g'))
  | Opt r1 =>
      match rmatch r1 s g k with
      | Some a => Some a
      | None => k s g
      end
  | Repeat lazy lo hi p =>
      if lazy then rep_lazy p lo hi s (fun s' => k s' g)
      else rep_greedy p lo hi s (fun s' => k s' g)
  end.

End Matcher.

Arguments rep_greedy {A} p lo hi s k.
Arguments rep_lazy {A} p lo hi s k.
Arguments rmatch ignorecase {A} r s g k.

(** A compiled pattern. *)
Record pattern : Type := {
  p_regex : regex;
  p_ignorecase : bool;
  p_groups : nat;                       (* number of capturing groups *)
  p_groupindex : list (string * nat)    (* named groups *)
}.

(** A match object. *)
Record rmatch_obj : Type := {
  m_start : nat;          (* m.start() *)
  m_text : text;          (* m.group(0) *)
  m_rest : text;          (* string[m.end():] *)
  m_captures : captures
}.

Definition match_here (pat : pattern) (s : text) : option (text * captures) :=
  rmatch pat.(p_ignorecase) pat.(p_regex) s [] (fun s' g => Some (s', g)).

(** [Pattern.search]: the match at the leftmost position where one exists. *)
Fixpoint search_from (pat : pattern) (pos : nat) (s : text) : option rmatch_obj :=
  match match_here pat s with
  | Some (s', g) =>
      Some {| m_start := pos; m_text := span s s'; m_rest := s'; m_captures := g |}
  | None =>
      match s with
      | [] => None
      | _ :: s' => search_from pat (S pos) s'
      end
  end.

Definition search (pat : pattern) (s : text) : option rmatch_obj := search_from pat 0 s.

Definition group_number (pat : pattern) (name : string) : option nat :=
  dict_get (map (fun kv => (fst kv, Some (snd kv))) pat.(p_groupindex)) (T name) None.

(** [m.group(name)]; [None] when the group took no part in the match. *)
Definition group (pat : pattern) (m : rmatch_obj) (name : string) : option text :=
  match group_number pat name with
  | Some i => capture m.(m_captures) i
  | None => None
  end.

(** ** Replacement templates

    [Pattern.sub] reads its replacement string as a template in which a
    backslash starts an escape or a group reference ([parse_template] of
    the [re] module, CPython 3.12).  [None] stands for the exception the
    parser raises on a malformed template. *)

Inductive tpiece : Type :=
| TLit (c : ascii)
| TGroup (i : nat).

Definition ESCAPES (c : ascii) : option ascii :=
  if Ascii.eqb c "a" then Some (ascii_of_N 7)
  else if Ascii.eqb c "b" then Some (ascii_of_N 8)
  else if Ascii.eqb c "f" then Some (ascii_of_N 12)
  else if Ascii.eqb c "n" then Some (ascii_of_N 10)
  else if Ascii.eqb c "r" then Some (ascii_of_N 13)
  else if Ascii.eqb c "t" then Some (ascii_of_N 9)
  else if Ascii.eqb c "v" then Some (ascii_of_N 11)
  else if Ascii.eqb c backslash then Some backslash
  else None.

Definition digit_val (c : ascii) : N := (code c - 48)%N.

(** [int(s, base)] for a digit string. *)
Definition int_of (base : N) (s : text) : N :=
  fold_left (fun acc c => (acc * base + digit_val c)%N) s 0%N.

(** The group a name between [\g<] and [>] refers to. *)
Definition group_of_name (pat : pattern) (name : text) : option nat :=
  match dict_get (map (fun kv => (fst kv, Some (snd kv))) pat.(p_groupindex)) name None with
  | Some i => Some i
  | None =>
      match name with
      | [] => None
      | _ =>
          if forallb is_digit name && (int_of 10 name <=? N.of_nat pat.(p_groups))%N
          then Some (N.to_nat (int_of 10 name))
          else None
      end
  end.

Definition numbered_group (pat : pattern) (digits : text) : option nat :=
  if (int_of 10 digits <=? N.of_nat pat.(p_groups))%N
  then Some (N.to_nat (int_of 10 digits)) else None.

Definition cons_piece (x : tpiece) (r : option (list tpiece)) : option (list tpiece) :=
  option_map (cons x) r.

Definition cons_group (i : option nat) (r : option (list tpiece)) : option (list tpiece) :=
  match i with
  | Some n => cons_piece (TGroup n) r
  | None => None
  end.

(** [name] is [Some acc] while the characters of a group name are read. *)
Fixpoint parse_template (pat : pattern) (name : option text) (s : text)
  : option (list tpiece) :=
  match name with
  | Some acc =>
      match s with
      | [] => None
      | c :: s1 =>
          if Ascii.eqb c ">" then
            cons_group (group_of_name pat acc) (parse_template pat None s1)
          else parse_template pat (Some (acc ++ [c])) s1
      end
  | None =>
      match s with
      | [] => Some []
      | c :: s1 =>
          if negb (Ascii.eqb c backslash) then
            cons_piece (TLit c) (parse_template pat None s1)
          else
            match s1 with
            | [] => None
            | e :: s2 =>
                if Ascii.eqb e "g" then
                  match s2 with
                  | lt :: s3 =>
                      if Ascii.eqb lt "<" then parse_template pat (Some []) s3
                      else None
                  | [] => None
                  end
                else if Ascii.eqb e "0" then
                  match s2 with
                  | d1 :: s3 =>
                      if is_octdigit d1 then
                        match s3 with
                        | d2 :: s4 =>
                            if is_octdigit d2 then
                              cons_piece (TLit (ascii_of_N (N.land (int_of 8 [d1; d2]) 255)))
                                         (parse_template pat None s4)
                            else
                              cons_piece (TLit (ascii_of_N (int_of 8 [d1])))
                                         (parse_template pat None s3)
                        | [] => Some [TLit (ascii_of_N (int_of 8 [d1]))]
                        end
                      else cons_piece (TLit zero) (parse_template pat None s2)
                  | [] => Some [TLit zero]
                  end
                else if is_digit e then
                  match s2 with
                  | d1 :: s3 =>
                      if is_digit d1 then
                        match s3 with
                        | d2 :: s4 =>
                            if is_octdigit e && is_octdigit d1 && is_octdigit d2 then
                              if (int_of 8 [e; d1; d2] <=? 255)%N then
                                cons_piece (TLit (ascii_of_N (int_of 8 [e; d1; d2])))
                                           (parse_template pat None s4)
                              else None
                            else
                              cons_group (numbered_group pat [e; d1])
                                         (parse_template pat None s3)
                        | [] => cons_group (numbered_group pat [e; d1]) (Some [])
                        end
                      else
                        cons_group (numbered_group pat [e]) (parse_template pat None s2)
                  | [] => cons_group (numbered_group pat [e]) (Some [])
                  end
                else
                  match ESCAPES e with
                  | Some x => cons_piece (TLit x) (parse_template pat None s2)
                  | None =>
                      if is_ascii_letter e then None
                      else cons_piece (TLit backslash)
                             (cons_piece (TLit e) (parse_template pat None s2))
                  end
            end
      end
  end.

(** [\0] and [\g<0>] stand for the whole match; a group that took no part
    in the match expands to the empty string. *)
Definition expand_piece (m : rmatch_obj) (x : tpiece) : text :=
  match x with
  | TLit c => [c]
  | TGroup 0 => m.(m_text)
  | TGroup i => match capture m.(m_captures) i with Some t => t | None => [] end
  end.

Definition expand_template (m : rmatch_obj) (t : list tpiece) : text :=
  List.concat (map (expand_piece m) t).

(** [pat.sub(repl, content, count=1)] *)
Definition sub_first (pat : pattern) (repl content : text) : option text :=
  match parse_template pat None repl with
  | None => None
  | Some t =>
      match search pat content with
      | None => Some content
      | Some m =>
          Some (firstn m.(m_start) content ++ expand_template m t ++ m.(m_rest))
      end
  end.

(** ** The comment styles *)

(** Lines joined by a newline. *)
Fixpoint lines (l : list string) : text :=
  match l with
  | [] => []
  | [s] => T s
  | s :: l' => T s ++ nl :: lines l'
  end.

Fixpoint seq (l : list regex) : regex :=
  match l with
  | [] => Eps
  | [r] => r
  | r :: l' => Cat r (seq l')
  end.

(** [\d{4}(?:-\d{4})?] *)
Definition years_re : regex :=
  Cat (exactly 4 is_digit) (Opt (Cat (Chr "-") (exactly 4 is_digit))).

(** [[.\n]] *)
Definition dot_or_nl (c : ascii) : bool := Ascii.eqb c "." || Ascii.eqb c nl.

Definition spdx_groupindex : list (string * nat) :=
  [("years", 1); ("owner", 2); ("license", 3)]%string.

Definition non_spdx_groupindex : list (string * nat) :=
  [("years", 2); ("owner", 3); ("license", 5)]%string.

(** The part all three legacy patterns share after the comment opener:
    [[\s\S]{0,5}?(Copyright|\(c\))\s+(?P<years>...)\s+(?P<owner>[^.\n]+)[.\n]]
    [.*?Licensed under (the )?(?P<license>[^.\n]+)] *)
Definition non_spdx_tail : list regex :=
  [ Repeat true 0 (Some 5) any;
    Group 1 (Alt (lit (T "Copyright")) (lit (T "(c)")));
    plus is_space;
    Group 2 years_re;
    plus is_space;
    Group 3 (plus not_dot_nl);
    In_ dot_or_nl;
    Repeat true 0 None dot;
    lit (T "Licensed under ");
    Opt (Group 4 (lit (T "the ")));
    Group 5 (plus not_dot_nl) ].

Inductive field : Set := f_years | f_owner | f_license.

Inductive tmpl_piece : Type :=
| Txt (s : text)
| Fld (f : field).

Record style : Type := {
  spdx_pattern : pattern;
  non_spdx_pattern : pattern;
  header_template : list tmpl_piece
}.

Definition java_style : style := {|
  spdx_pattern := {|
    p_regex := seq
      [ lit (lines ["/*"; " * SPDX-FileCopyrightText: "]);
        Group 1 years_re; Chr " "; Group 2 (plus dot);
        lit (lines [""; " * SPDX-License-Identifier: "]);
        Group 3 (plus dot);
        lit (lines [""; " */"]) ];
    p_ignorecase := false;     (* re.MULTILINE only *)
    p_groups := 3;
    p_groupindex := spdx_groupindex |};
  non_spdx_pattern := {|
    p_regex := seq (lit (T "/*") :: non_spdx_tail);
    p_ignorecase := true;      (* re.IGNORECASE *)
    p_groups := 5;
    p_groupindex := non_spdx_groupindex |};
  header_template :=
    [ Txt (lines ["/*"; " * SPDX-FileCopyrightText: "]); Fld f_years; Txt (T " ");
      Fld f_owner; Txt (lines [""; " * SPDX-License-Identifier: "]);
      Fld f_license; Txt (lines [""; " */"]) ]
|}.

Definition python_style : style := {|
  spdx_pattern := {|
    p_regex := seq
      [ lit (lines ["#"; "# SPDX-FileCopyrightText: "]);
        Group 1 years_re; Chr " "; Group 2 (plus dot);
        lit (lines [""; "# SPDX-License-Identifier: "]);
        Group 3 (plus dot);
        lit (lines [""; "#"]) ];
    p_ignorecase := false;
    p_groups := 3;
    p_groupindex := spdx_groupindex |};
  non_spdx_pattern := {|
    p_regex := seq (lit (T "#") :: non_spdx_tail);
    p_ignorecase := true;
    p_groups := 5;
    p_groupindex := non_spdx_groupindex |};
  header_template :=
    [ Txt (lines ["#"; "# SPDX-FileCopyrightText: "]); Fld f_years; Txt (T " ");
      Fld f_owner; Txt (lines [""; "# SPDX-License-Identifier: "]);
      Fld f_license; Txt (lines [""; "#"]) ]
|}.

Definition xml_style : style := {|
  spdx_pattern := {|
    p_regex := seq
      [ lit (lines ["<!--"; "  SPDX-FileCopyrightText: "]);
        Group 1 years_re; Chr " "; Group 2 (plus dot);
        lit (lines [""; "  SPDX-License-Identifier: "]);
        Group 3 (plus dot);
        lit (lines [""; "-->"]) ];
    p_ignorecase := false;
    p_groups := 3;
    p_groupindex := spdx_groupindex |};
  non_spdx_pattern := {|
    p_regex := seq (lit (T "<!--") :: non_spdx_tail);
    p_ignorecase := true;
    p_groups := 5;
    p_groupindex := non_spdx_groupindex |};
  header_template :=
    [ Txt (lines ["<!--"; "  SPDX-FileCopyrightText: "]); Fld f_years; Txt (T " ");
      Fld f_owner; Txt (lines [""; "  SPDX-License-Identifier: "]);
      Fld f_license; Txt (lines [""; "-->"]) ]
|}.

Definition FILE_TYPE_PATTERNS (t : file_type) : style :=
  match t with
  | java => java_style
  | python => python_style
  | xml => xml_style
  end.

(** [header_template.format(years=..., license=..., owner=...)] *)
Definition format (t : list tmpl_piece) (years license owner : text) : text :=
  List.concat
    (map (fun x =>
            match x with
            | Txt s => s
            | Fld f_years => years
            | Fld f_owner => owner
            | Fld f_license => license
            end) t).

(** ** The resolver *)

Inductive change_type : Set :=
| spdx_updated
| non_spdx_converted
| header_inserted
| unchanged.

Definition bind {A B : Type} (x : option A) (f : A -> option B) : option B :=
  match x with
  | Some a => f a
  | None => None
  end.

Notation "x <- e ;; k" := (bind e (fun x => k))
  (at level 61, e at next level, right associativity).

(** [None] stands for an exception raised on the way. *)
Definition update_or_insert_header (CURRENT_YEAR : N)
           (content file_path fallback_license fallback_owner : text)
  : option (text * change_type) :=
  let file_type := get_file_type file_path in
  let patterns := FILE_TYPE_PATTERNS file_type in
  let spdx_pattern := patterns.(spdx_pattern) in
  let non_spdx_pattern := patterns.(non_spdx_pattern) in
  let header_template := patterns.(header_template) in
  match search spdx_pattern content with
  | Some m =>
      existing <- group spdx_pattern m "years" ;;
      years <- get_updated_years CURRENT_YEAR existing ;;
      license <- group spdx_pattern m "license" ;;
      owner <- group spdx_pattern m "owner" ;;
      let new_header := format header_template years license owner in
      updated <- sub_first spdx_pattern new_header content ;;
      Some (updated, spdx_updated)
  | None =>
      match search non_spdx_pattern content with
      | Some m =>
          existing <- group non_spdx_pattern m "years" ;;
          years <- get_updated_years CURRENT_YEAR existing ;;
          raw_owner <- group non_spdx_pattern m "owner" ;;
          let owner := strip raw_owner in
          raw_license <- group non_spdx_pattern m "license" ;;
          let license := normalize_license raw_license fallback_license in
          let new_header := format header_template years license owner in
          updated <- sub_first non_spdx_pattern new_header content ;;
          Some (updated, non_spdx_converted)
      | None =>
          let new_header :=
            format header_template (str CURRENT_YEAR) fallback_license fallback_owner in
          Some (new_header ++ nl :: nl :: content, header_inserted)
      end
  end.

(** What [process_file] does to a file holding [original]: the change type
    it returns and the text it writes back, if it writes. *)
Definition process_file (CURRENT_YEAR : N)
           (original file_path fallback_license fallback_owner : text)
           (dry_run : bool) : option (change_type * option text) :=
  r <- update_or_insert_header CURRENT_YEAR original file_path fallback_license fallback_owner ;;
  let (updated, change_type) := r in
  if negb (text_eqb original updated) then
    Some (change_type, if dry_run then None else Some updated)
  else Some (unchanged, None).

(** ** Collecting files

    [os.walk(root_dir)] is taken as the sequence it yields: one entry
    [(dirpath, dirnames, filenames)] per directory, the root first. *)

(** [s.startswith(prefix)] *)
Fixpoint startswith (s prefix : text) {struct prefix} : bool :=
  match prefix, s with
  | [], _ => true
  | x :: prefix', c :: s' => Ascii.eqb c x && startswith s' prefix'
  | _ :: _, [] => false
  end.

(** [s.endswith(suffix)] *)
Definition endswith (s suffix : text) : bool :=
  text_eqb (skipn (List.length s - List.length suffix) s) suffix.

(** [os.path.join(a, b)] of [posixpath]. *)
Definition join (a b : text) : text :=
  if startswith b (T "/") then b
  else if text_eqb a [] || endswith a (T "/") then a ++ b
  else a ++ T "/" ++ b.

Definition walk_entry : Type := text * list text * list text.

Fixpoint collect_files (walk : list walk_entry) (extensions : list text)
         (recursive : bool) : list text :=
  match walk with
  | [] => []
  | (dirpath, _, filenames) :: walk' =>
      map (join dirpath)
          (filter (fun file => existsb (endswith file) extensions) filenames)
      ++ (if negb recursive then [] else collect_files walk' extensions recursive)
  end.

(** ** The summary *)

(** The counters of [main], one field per key of its [stats] dictionary. *)
Record stats : Set := {
  total : N;
  n_spdx_updated : N;
  n_non_spdx_converted : N;
  n_header_inserted : N;
  n_unchanged : N
}.

(** The name of a file type, the key of [FILE_TYPE_PATTERNS]. *)
Definition type_name (t : file_type) : string :=
  match t with
  | java => "java"
  | python => "python"
  | xml => "xml"
  end.

(** The [file_types] dictionary of [main]: its items in insertion order. *)
Definition type_counts : Type := list (file_type * N).

Definition file_type_eqb (a b : file_type) : bool :=
  match a, b with
  | java, java | python, python | xml, xml => true
  | _, _ => false
  end.

(** [d.get(t, 0)] *)
Fixpoint count_get (d : type_counts) (t : file_type) : N :=
  match d with
  | [] => 0
  | (k, v) :: d' => if file_type_eqb k t then v else count_get d' t
  end.

(** [d[t] = v] *)
Fixpoint count_set (d : type_counts) (t : file_type) (v : N) : type_counts :=
  match d with
  | [] => [(t, v)]
  | (k, w) :: d' => if file_type_eqb k t then (k, v) :: d' else (k, w) :: count_set d' t v
  end.

(** The order of strings, by code point. *)
Fixpoint text_ltb (a b : text) : bool :=
  match a, b with
  | _, [] => false
  | [], _ :: _ => true
  | x :: a', y :: b' =>
      (code x <? code y)%N || (Ascii.eqb x y && text_ltb a' b')
  end.

Definition item_leb (x y : file_type * N) : bool :=
  negb (text_ltb (T (type_name (fst y))) (T (type_name (fst x)))).

Fixpoint insert_sorted (x : file_type * N) (l : type_counts) : type_counts :=
  match l with
  | [] => [x]
  | y :: l' => if item_leb x y then x :: l else y :: insert_sorted x l'
  end.

(** [sorted(d.items())] for a dictionary whose keys are file types. *)
Definition sorted_items (d : type_counts) : type_counts :=
  fold_right insert_sorted [] d.

(** ["\n".join(lines)] *)
Fixpoint join_lines (l : list text) : text :=
  match l with
  | [] => []
  | [s] => s
  | s :: l' => s ++ nl :: join_lines l'
  end.

Definition rule : text := T "----------------------------------------".

Definition format_summary (st : stats) (dry_run : bool) (file_types : type_counts)
  : text :=
  join_lines
    ([ nl :: rule;
       T "SPDX Header Update Summary";
       rule;
       T "Total files scanned:     " ++ str st.(total);
       T "Dry-run mode:            " ++ T (if dry_run then "Yes" else "No");
       T "Files with changes:      "
         ++ str (st.(n_spdx_updated) + st.(n_non_spdx_converted) + st.(n_header_inserted));
       T " - SPDX header updated:   " ++ str st.(n_spdx_updated);
       T " - Non-SPDX converted:    " ++ str st.(n_non_spdx_converted);
       T " - Header inserted:       " ++ str st.(n_header_inserted);
       T "Files unchanged:         " ++ str st.(n_unchanged);
       [];
       T "File types processed:" ]
     ++ map (fun item => T " - " ++ T (type_name (fst item)) ++ T " files:       "
                         ++ str (snd item))
            (sorted_items file_types)
     ++ [ rule ]).

(** ** The run

    The files on disk are a partial map from paths to the characters
    stored under them (the decoded bytes); reading a path that is not
    there, or that does not decode, raises.  The script opens every file
    in text mode, with
    [open(path, 'r', encoding='utf-8')] and [open(path, 'w',
    encoding='utf-8')]: what is read and written goes through Python's
    newline translation.  What [main] prints is left out. *)

Definition disk : Type := text -> option text.

Definition cr : ascii := "013"%char.

(** Reading in text mode: universal newlines, a carriage return followed
    by a newline, and a carriage return alone, are read as one newline. *)
Fixpoint universal_newlines (s : text) : text :=
  match s with
  | [] => []
  | c :: s' =>
      if Ascii.eqb c cr then
        match s' with
        | d :: s'' =>
            if Ascii.eqb d nl then nl :: universal_newlines s''
            else nl :: universal_newlines s'
        | [] => [nl]
        end
      else c :: universal_newlines s'
  end.

(** [os.linesep] *)
Definition linesep : text := [nl].

(** Writing in text mode: every newline is written as [os.linesep]. *)
Fixpoint to_linesep (s : text) : text :=
  match s with
  | [] => []
  | c :: s' => (if Ascii.eqb c nl then linesep else [c]) ++ to_linesep s'
  end.

(** [open(path, 'r', encoding='utf-8').read()] *)
Definition read (fs : disk) (path : text) : option text :=
  option_map universal_newlines (fs path).

(** [open(path, 'w', encoding='utf-8').write(content)] *)
Definition write (fs : disk) (path content : text) : disk :=
  fun q => if text_eqb q path then Some (to_linesep content) else fs q.

(** [process_file] on the disk: the change type it returns and the disk
    it leaves. *)
Definition process_path (CURRENT_YEAR : N) (fs : disk)
           (file_path fallback_license fallback_owner : text) (dry_run : bool)
  : option (change_type * disk) :=
  original <- read fs file_path ;;
  r <- process_file CURRENT_YEAR original file_path fallback_license fallback_owner
         dry_run ;;
  Some (fst r,
        match snd r with
        | Some updated => write fs file_path updated
        | None => fs
        end).

Definition tally (st : stats) (result : change_type) : stats :=
  let st := {| total := st.(total) + 1;
               n_spdx_updated := st.(n_spdx_updated);
               n_non_spdx_converted := st.(n_non_spdx_converted);
               n_header_inserted := st.(n_header_inserted);
               n_unchanged := st.(n_unchanged) |} in
  match result with
  | spdx_updated =>
      {| total := st.(total);
         n_spdx_updated := st.(n_spdx_updated) + 1;
         n_non_spdx_converted := st.(n_non_spdx_converted);
         n_header_inserted := st.(n_header_inserted);
         n_unchanged := st.(n_unchanged) |}
  | non_spdx_converted =>
      {| total := st.(total);
         n_spdx_updated := st.(n_spdx_updated);
         n_non_spdx_converted := st.(n_non_spdx_converted) + 1;
         n_header_inserted := st.(n_header_inserted);
         n_unchanged := st.(n_unchanged) |}
  | header_inserted =>
      {| total := st.(total);
         n_spdx_updated := st.(n_spdx_updated);
         n_non_spdx_converted := st.(n_non_spdx_converted);
         n_header_inserted := st.(n_header_inserted) + 1;
         n_unchanged := st.(n_unchanged) |}
  | unchanged =>
      {| total := st.(total);
         n_spdx_updated := st.(n_spdx_updated);
         n_non_spdx_converted := st.(n_non_spdx_converted);
         n_header_inserted := st.(n_header_inserted);
         n_unchanged := st.(n_unchanged) + 1 |}
  end.

(** The loop of [main] over the collected paths. *)
Fixpoint process_all (CURRENT_YEAR : N) (fallback_license fallback_owner : text)
         (dry_run : bool) (paths : list text)
         (fs : disk) (st : stats) (file_types : type_counts)
  : option (disk * stats * type_counts) :=
  match paths with
  | [] => Some (fs, st, file_types)
  | file_path :: paths' =>
      let file_type := get_file_type file_path in
      let file_types := count_set file_types file_type (count_get file_types file_type + 1) in
      r <- process_path CURRENT_YEAR fs file_path fallback_license fallback_owner dry_run ;;
      process_all CURRENT_YEAR fallback_license fallback_owner dry_run paths'
                  (snd r) (tally st (fst r)) file_types
  end.

(** The parsed command line; [a_summary_file] is [None] without the
    option, and an empty name counts as none. *)
Record args : Type := {
  a_extensions : list text;
  a_recursive : bool;
  a_fallback_license : text;
  a_fallback_owner : text;
  a_dry_run : bool;
  a_summary : bool;
  a_summary_file : option text
}.

Definition normalize_extension (ext : text) : text :=
  if startswith ext (T ".") then ext else T "." ++ ext.

Definition zero_stats : stats :=
  {| total := 0; n_spdx_updated := 0; n_non_spdx_converted := 0;
     n_header_inserted := 0; n_unchanged := 0 |}.

Definition files_needing_update (st : stats) : N :=
  st.(n_spdx_updated) + st.(n_non_spdx_converted) + st.(n_header_inserted).

(** [main] after [parse_args], with [walk] what [os.walk(args.path)]
    yields: the disk it leaves, the counters and the exit status. *)
Definition main (CURRENT_YEAR : N) (a : args) (walk : list walk_entry) (fs : disk)
  : option (disk * stats * N) :=
  let extensions := map normalize_extension a.(a_extensions) in
  let paths := collect_files walk extensions a.(a_recursive) in
  r <- process_all CURRENT_YEAR a.(a_fallback_license) a.(a_fallback_owner)
         a.(a_dry_run) paths fs zero_stats [] ;;
  let '(fs, st, file_types) := r in
  let fs :=
    match a.(a_summary_file) with
    | Some (c :: name) =>
        write fs (c :: name) (format_summary st a.(a_dry_run) file_types ++ [nl])
    | _ => fs
    end in
  Some (fs, st,
        if a.(a_dry_run) && (0 <? files_needing_update st)%N then 1%N else 0%N).

(** ** Vocabulary of the statements *)

Definition stops (p : ascii -> bool) (s : text) : Prop :=
  match s with
  | [] => True
  | c :: _ => p c = false
  end.

(** Strings of the form YYYY or YYYY-YYYY. *)
Definition year4 (s : text) : bool :=
  Nat.eqb (List.length s) 4 && forallb is_digit s.

Definition years_form (s : text) : bool :=
  year4 s
  || (year4 (firstn 4 s) && text_eqb (firstn 1 (skipn 4 s)) (T "-")
      && year4 (skipn 5 s)).

(** The three canonical patterns have one shape and differ in three
    literals only; so do the three templates. *)
Definition spdx_shape (a b c : text) : regex :=
  seq [ lit a; Group 1 years_re; Chr " "; Group 2 (plus dot);
        lit (nl :: b); Group 3 (plus dot); lit (nl :: c) ].

Definition header_shape (a b c years license owner : text) : text :=
  a ++ years ++ " "%char :: owner ++ nl :: b ++ license ++ nl :: c.

Definition style_open (t : file_type) : text :=
  match t with
  | java => lines ["/*"; " * SPDX-FileCopyrightText: "]
  | python => lines ["#"; "# SPDX-FileCopyrightText: "]
  | xml => lines ["<!--"; "  SPDX-FileCopyrightText: "]
  end.

Definition style_mid (t : file_type) : text :=
  match t with
  | java => T " * SPDX-License-Identifier: "
  | python => T "# SPDX-License-Identifier: "
  | xml => T "  SPDX-License-Identifier: "
  end.

Definition style_close (t : file_type) : text :=
  match t with
  | java => T " */"
  | python => T "#"
  | xml => T "-->"
  end.

(** The character every canonical header of a style starts with. *)
Definition opener (t : file_type) : ascii :=
  match t with
  | java => "/"
  | python => "#"
  | xml => "<"
  end.

Definition plain (s : text) : Prop :=
  s <> [] /\ contains nl s = false /\ contains backslash s = false.

(** A file whose only header sits below fifty lines of code. *)
Definition filler : text :=
  List.concat (repeat (T "int unused = 0;" ++ [nl]) 50).

Definition deep_file : text :=
  filler
  ++ lines [ "/*";
             " * SPDX-FileCopyrightText: 2021 Lucimber UG";
             " * SPDX-License-Identifier: Apache-2.0";
             " */";
             "class A {}" ].

Definition deep_file_refreshed : text :=
  filler
  ++ lines [ "/*";
             " * SPDX-FileCopyrightText: 2021-2025 Lucimber UG";
             " * SPDX-License-Identifier: Apache-2.0";
             " */";
             "class A {}" ].

(** A file with a legacy header, and what it is converted to in 2025. *)
Definition legacy_file : text :=
  lines [ "/*";
          " * Copyright 2019 Lucimber UG";
          " * Licensed under the MIT";
          " */";
          "class A {}" ].

Definition legacy_file_converted : text :=
  lines [ "/*";
          " * SPDX-FileCopyrightText: 2019-2025 Lucimber UG";
          " * SPDX-License-Identifier: MIT";
          " */";
          " */";
          "class A {}" ].

Definition legacy_match (n : nat) : rmatch_obj :=
  {| m_start := n;
     m_text := lines ["/*"; " * Copyright 2019 Lucimber UG"; " * Licensed under the MIT"];
     m_rest := lines [""; " */"; "class A {}"];
     m_captures := [ (5, T "MIT"); (4, T "the "); (3, T "Lucimber UG");
                     (2, T "2019"); (1, T "Copyright") ] |}.

Definition within (hi : option nat) (n : nat) : Prop :=
  match hi with
  | Some h => n <= h
  | None => True
  end.

Fixpoint groupless (r : regex) : bool :=
  match r with
  | Group _ _ => false
  | Cat r1 r2 | Alt r1 r2 => groupless r1 && groupless r2
  | Opt r1 => groupless r1
  | _ => true
  end.

Definition legacy_shape (op : text) : regex := seq (lit op :: non_spdx_tail).

Definition legacy_open (t : file_type) : text :=
  match t with
  | java => T "/*"
  | python => T "#"
  | xml => T "<!--"
  end.

Definition current_header_with_escape : text :=
  lines [ "/*";
          " * SPDX-FileCopyrightText: 2025 ACME\north";
          " * SPDX-License-Identifier: MIT";
          " */";
          "class A {}" ].

Definition current_header_broken : text :=
  lines [ "/*";
          " * SPDX-FileCopyrightText: 2025 ACME";
          "orth";
          " * SPDX-License-Identifier: MIT";
          " */";
          "class A {}" ].

Definition header_with_double_backslash : text :=
  lines [ "// generated";
          "/*";
          " * SPDX-FileCopyrightText: 2021 R\\D Labs";
          " * SPDX-License-Identifier: MIT";
          " */";
          "class A {}" ].

Definition legacy_with_escape : text :=
  lines [ "/*";
          " * Copyright 2021 ACME\north";
          " * Licensed under MIT";
          " */";
          "class A {}" ].

Definition legacy_with_escape_converted : text :=
  lines [ "/*";
          " * SPDX-FileCopyrightText: 2021-2025 ACME";
          "orth";
          " * SPDX-License-Identifier: MIT";
          " */";
          " */";
          "class A {}" ].

(** A legacy header whose license text is in no table and whose owner
    ends with the two characters backslash and 5, and what it is
    converted to in 2025 with the fallback license MIT. *)
Definition legacy_with_group_ref : text :=
  lines [ "/*";
          " * Copyright 2020 ACME \5";
          " * Licensed under Foo Public";
          " */";
          "class A {}" ].

Definition legacy_with_group_ref_converted : text :=
  lines [ "/*";
          " * SPDX-FileCopyrightText: 2020-2025 ACME Foo Public";
          " * SPDX-License-Identifier: MIT";
          " */";
          " */";
          "class A {}" ].

(** The same header with a plain owner. *)
Definition legacy_unmapped : text :=
  lines [ "/*";
          " * Copyright 2020 ACME";
          " * Licensed under Foo Public";
          " */";
          "class A {}" ].

Definition tab : ascii := "009"%char.

Definition legacy_with_blank_owner : text :=
  lines [ "/* (c) 2021  . Licensed under GPLv3";
          "*/";
          "class A {}" ].

Definition header_with_bad_escape : text :=
  lines [ "#";
          "# SPDX-FileCopyrightText: 2023 Dev\group";
          "# SPDX-License-Identifier: MIT";
          "#";
          "print('hi')" ].

Definition of_type (t : file_type) (p : text) : bool :=
  file_type_eqb (get_file_type p) t.

(** A disk with two Python files, one already carrying the header of 2025. *)
Definition sample_disk : disk :=
  fun q =>
    if text_eqb q (T "src/new.py") then Some (T "x = 1")
    else if text_eqb q (T "src/done.py")
         then Some (lines [ "#"; "# SPDX-FileCopyrightText: 2025 Acme Co";
                            "# SPDX-License-Identifier: MIT"; "#"; ""; "y = 2" ])
         else None.

Definition sample_walk : list walk_entry :=
  [ (T "src", [T "gen"], [T "new.py"; T "done.py"; T "notes.txt"]);
    (T "src/gen", [], [T "skipped.py"]) ].

Definition sample_args (dry_run : bool) : args :=
  {| a_extensions := [T "py"];
     a_recursive := false;
     a_fallback_license := T "MIT";
     a_fallback_owner := T "Acme Co";
     a_dry_run := dry_run;
     a_summary := false;
     a_summary_file := None |}.

(** A path that a dry run reports as unchanged. *)
Definition quiet (Y : N) (fl fo : text) (fs : disk) (p : text) : Prop :=
  exists original,
    read fs p = Some original
    /\ process_file Y original p fl fo true = Some (unchanged, None).



Definition collected (a : args) (walk : list walk_entry) : list text :=
  collect_files walk (map normalize_extension (a_extensions a)) (a_recursive a).

Definition well_kept (d : type_counts) : Prop :=
  NoDup (map fst d) /\ Forall (fun item => snd item <> 0%N) d.

Definition seen (item : file_type * N) : bool := negb (N.eqb (snd item) 0).

Definition with_extensions (a : args) (extensions : list text) : args :=
  {| a_extensions := extensions;
     a_recursive := a_recursive a;
     a_fallback_license := a_fallback_license a;
     a_fallback_owner := a_fallback_owner a;
     a_dry_run := a_dry_run a;
     a_summary := a_summary a;
     a_summary_file := a_summary_file a |}.

(** Whether "copyright" or "(c)", in any letter case, starts at one of the
    offsets [k], ..., [k + 5] of [s]. *)
Definition word_near (s : text) (k : nat) : bool :=
  existsb (fun j =>
             text_eqb (lower (firstn 9 (skipn (k + j) s))) (T "copyright")
             || text_eqb (lower (firstn 3 (skipn (k + j) s))) (T "(c)"))
          (List.seq 0 6).

(** * Properties *)

(** ** Texts *)

Lemma text_eqb_eq (a b : text) : text_eqb a b = true <-> a = b.
Proof.
  revert b; induction a as [|x a IH]; intros [|y b]; simpl; split;
    try congruence; try reflexivity.
  - intros H. apply andb_prop in H as [Hx Hab].
    apply Ascii.eqb_eq in Hx. apply IH in Hab. congruence.
  - intros H. injection H as -> ->.
    rewrite Ascii.eqb_refl. simpl. now apply IH.
Qed.

Lemma text_eqb_refl (a : text) : text_eqb a a = true.
Proof. now apply text_eqb_eq. Qed.

Lemma text_eqb_neq (a b : text) : text_eqb a b = false <-> a <> b.
Proof.
  split.
  - intros H E. apply text_eqb_eq in E. congruence.
  - intros H. destruct (text_eqb a b) eqn:E; [|reflexivity].
    apply text_eqb_eq in E. contradiction.
Qed.

Lemma contains_app (c : ascii) (a b : text) :
  contains c (a ++ b) = contains c a || contains c b.
Proof. apply existsb_app. Qed.

Lemma contains_false_forall (c : ascii) (s : text) :
  contains c s = false <-> Forall (fun x => x <> c) s.
Proof.
  unfold contains. induction s as [|x s IH]; simpl.
  - split; auto.
  - rewrite orb_false_iff, IH. split.
    + intros [Hx Hs]. constructor; [|assumption].
      intros ->. now rewrite Ascii.eqb_refl in Hx.
    + intros H. inversion H; subst. split; [|assumption].
      apply Ascii.eqb_neq. congruence.
Qed.

Lemma span_app (a b : text) : span (a ++ b) b = a.
Proof.
  unfold span. rewrite length_app, Nat.add_sub.
  now rewrite firstn_app, Nat.sub_diag, firstn_all, app_nil_r.
Qed.

(** ** Splitting at a hyphen *)

Lemma split_without (sep : ascii) (s : text) :
  contains sep s = false -> split sep s = [s].
Proof.
  unfold contains. induction s as [|c s IH]; simpl; [reflexivity|].
  intros H. apply orb_false_iff in H as [Hc Hs].
  rewrite Ascii.eqb_sym, Hc. now rewrite IH.
Qed.

Lemma split_once (sep : ascii) (a b : text) :
  contains sep a = false -> contains sep b = false ->
  split sep (a ++ sep :: b) = [a; b].
Proof.
  unfold contains. intros Ha Hb. induction a as [|c a IH]; simpl.
  - rewrite Ascii.eqb_refl. now rewrite split_without.
  - simpl in Ha. apply orb_false_iff in Ha as [Hc Ha].
    rewrite Ascii.eqb_sym, Hc. now rewrite IH.
Qed.

(** ** The decimal rendering of the year *)

Lemma string_of_uint_digits (d : Decimal.uint) :
  forallb is_digit (T (NilEmpty.string_of_uint d)) = true.
Proof. induction d; simpl; auto. Qed.

Lemma str_digits (n : N) : forallb is_digit (str n) = true.
Proof. apply string_of_uint_digits. Qed.

Lemma digits_lack (c : ascii) (s : text) :
  is_digit c = false -> forallb is_digit s = true -> contains c s = false.
Proof.
  intros Hc. unfold contains. induction s as [|x s IH]; simpl; [reflexivity|].
  intros H. apply andb_prop in H as [Hx Hs]. rewrite (IH Hs), orb_false_r.
  apply Ascii.eqb_neq. intros ->. congruence.
Qed.

Lemma str_no_hyphen (n : N) : contains "-" (str n) = false.
Proof. apply digits_lack; [reflexivity | apply str_digits]. Qed.

(** ** Year ranges *)

Lemma get_updated_years_range (Y : N) (a b : text) :
  contains "-" a = false -> contains "-" b = false ->
  get_updated_years Y (a ++ T "-" ++ b) = Some (a ++ T "-" ++ str Y).
Proof.
  intros Ha Hb. unfold get_updated_years.
  rewrite contains_app. simpl (contains _ (T "-" ++ b)).
  rewrite orb_true_r. simpl (T "-" ++ b). now rewrite split_once.
Qed.

Lemma get_updated_years_single (Y : N) (s : text) :
  contains "-" s = false ->
  get_updated_years Y s =
  Some (if text_eqb s (str Y) then s else s ++ T "-" ++ str Y).
Proof.
  intros Hs. unfold get_updated_years. rewrite Hs.
  now destruct (text_eqb s (str Y)).
Qed.

(** C2.  Year-range update rule: a range [a-b] becomes [a-Y], the start
    kept and the end replaced by the current year; a single year equal
    to the current year stays as it is; any other single year [s]
    becomes the range [s-Y].  So "2021" and "2021-2023" both become
    "2021-2025" in 2025. *)
Theorem get_updated_years_rule (Y : N) (a b s : text) :
  contains "-" a = false -> contains "-" b = false -> contains "-" s = false ->
  get_updated_years Y (a ++ T "-" ++ b) = Some (a ++ T "-" ++ str Y)
  /\ get_updated_years Y (str Y) = Some (str Y)
  /\ (s <> str Y -> get_updated_years Y s = Some (s ++ T "-" ++ str Y))
  /\ get_updated_years 2025 (T "2021") = Some (T "2021-2025")
  /\ get_updated_years 2025 (T "2021-2023") = Some (T "2021-2025").
Proof.
  intros Ha Hb Hs. repeat split.
  - now apply get_updated_years_range.
  - rewrite get_updated_years_single by apply str_no_hyphen.
    now rewrite text_eqb_refl.
  - intros Hne. rewrite get_updated_years_single by assumption.
    apply text_eqb_neq in Hne. now rewrite Hne.
Qed.

Lemma get_updated_years_rule_witness :
  get_updated_years 2030 (T "1999" ++ T "-" ++ T "2004") = Some (T "1999" ++ T "-" ++ str 2030)
  /\ get_updated_years 2030 (str 2030) = Some (str 2030)
  /\ (T "2007" <> str 2030 ->
      get_updated_years 2030 (T "2007") = Some (T "2007" ++ T "-" ++ str 2030))
  /\ get_updated_years 2025 (T "2021") = Some (T "2021-2025")
  /\ get_updated_years 2025 (T "2021-2023") = Some (T "2021-2025").
Proof.
  apply (get_updated_years_rule 2030 (T "1999") (T "2004") (T "2007"));
    reflexivity.
Defined.

(** ** Dictionaries *)

Lemma dict_get_miss {V : Type} (d : list (string * V)) (key : text) (default : V) :
  (forall k v, In (k, v) d -> key <> T k) -> dict_get d key default = default.
Proof.
  induction d as [|[k v] d IH]; simpl; intros H; [reflexivity|].
  destruct (text_eqb (T k) key) eqn:E.
  - apply text_eqb_eq in E. exfalso. apply (H k v); auto.
  - apply IH. intros k' v' Hin. apply (H k' v'). now right.
Qed.

(** ** License names *)

Lemma normalize_license_hit (name fallback : text) (k v : string) :
  In (k, v) LICENSE_NAME_MAP -> strip name = T k ->
  normalize_license name fallback = T v.
Proof.
  unfold normalize_license. intros Hin ->.
  simpl in Hin.
  repeat (destruct Hin as [Hin|Hin];
          [injection Hin as <- <-; reflexivity|]).
  contradiction.
Qed.

Lemma normalize_license_miss (name fallback : text) :
  (forall k v, In (k, v) LICENSE_NAME_MAP -> strip name <> T k) ->
  normalize_license name fallback = fallback.
Proof.
  intros H. unfold normalize_license. apply dict_get_miss.
  intros k v Hin. apply in_map_iff in Hin as [[k' v'] [E Hin]].
  injection E as <- <-. now apply (H k' v').
Qed.

(** C7, at a file the code breaks on.  [normalize_license] itself does
    what the claim says of it, for every name and fallback: the name is
    trimmed and looked up, case and all, in the table; a hit gives the
    mapped identifier, a miss the fallback as it was passed.  The header
    rendered with its result is then handed to [Pattern.sub] as the
    replacement, which reads it as a template.  In
    [legacy_with_group_ref] the license text, Foo Public, is in no table
    and the owner ends with backslash, 5, which the template takes for
    the fifth group of the legacy pattern, the license: the new header
    carries the fallback on its license line and the license text,
    verbatim, on its owner line.  Nor does a fallback that holds a
    backslash reach the header as it was supplied: backslash, t comes
    out as a tab, and with backslash, g the resolver raises. *)
Theorem unmapped_license_left_in_header :
  (forall name fallback k v,
      In (k, v) LICENSE_NAME_MAP -> strip name = T k ->
      normalize_license name fallback = T v)
  /\ (forall name fallback,
        (forall k v, In (k, v) LICENSE_NAME_MAP -> strip name <> T k) ->
        normalize_license name fallback = fallback)
  /\ search (spdx_pattern java_style) legacy_with_group_ref = None
  /\ (exists m,
        search (non_spdx_pattern java_style) legacy_with_group_ref = Some m
        /\ m_start m = 0
        /\ group (non_spdx_pattern java_style) m "owner" = Some (T "ACME \5")
        /\ group (non_spdx_pattern java_style) m "license" = Some (T "Foo Public"))
  /\ normalize_license (T "Foo Public") (T "MIT") = T "MIT"
  /\ update_or_insert_header 2025 legacy_with_group_ref (T "A.java") (T "MIT")
       (T "Lucimber UG")
     = Some (legacy_with_group_ref_converted, non_spdx_converted)
  /\ legacy_with_group_ref_converted
     = format (header_template java_style) (T "2020-2025") (T "MIT")
         (T "ACME Foo Public")
       ++ lines [""; " */"; "class A {}"]
  /\ legacy_with_group_ref_converted
     <> format (header_template java_style) (T "2020-2025") (T "MIT") (T "ACME \5")
        ++ lines [""; " */"; "class A {}"]
  /\ update_or_insert_header 2025 legacy_unmapped (T "A.java") (T "LicenseRef\tX")
       (T "Lucimber UG")
     = Some (format (header_template java_style) (T "2020-2025")
               (T "LicenseRef" ++ tab :: T "X") (T "ACME")
             ++ lines [""; " */"; "class A {}"],
             non_spdx_converted)
  /\ update_or_insert_header 2025 legacy_unmapped (T "A.java") (T "LicenseRef\good")
       (T "Lucimber UG")
     = None.
Proof.
  split; [|split; [|split; [|split; [|split; [|split; [|split; [|split; [|split]]]]]]]].
  - intros name fallback k v. apply normalize_license_hit.
  - intros name fallback. apply normalize_license_miss.
  - vm_compute. reflexivity.
  - eexists. repeat split; vm_compute; reflexivity.
  - reflexivity.
  - vm_compute. reflexivity.
  - vm_compute. reflexivity.
  - intros E. apply text_eqb_eq in E. vm_compute in E. discriminate E.
  - vm_compute. reflexivity.
  - vm_compute. reflexivity.
Qed.

(** ** File types *)

Lemma rfind_from_app (c : ascii) (a b : text) (i last : Z) :
  rfind_from c (a ++ b) i last =
  rfind_from c b (i + Z.of_nat (List.length a))%Z (rfind_from c a i last).
Proof.
  revert i last. induction a as [|x a IH]; intros i last; simpl List.length.
  - simpl. now rewrite Z.add_0_r.
  - simpl app. simpl rfind_from. rewrite IH. f_equal. lia.
Qed.

Lemma rfind_from_without (c : ascii) (p : text) (i last : Z) :
  contains c p = false -> rfind_from c p i last = last.
Proof.
  unfold contains. revert i last.
  induction p as [|x p IH]; intros i last H; simpl in *; [reflexivity|].
  apply orb_false_iff in H as [Hx Hp].
  rewrite Ascii.eqb_sym, Hx. now apply IH.
Qed.

Lemma rfind_from_bound (c : ascii) (p : text) (i last : Z) :
  (last < i)%Z ->
  (last <= rfind_from c p i last < i + Z.of_nat (List.length p))%Z.
Proof.
  revert i last. induction p as [|x p IH]; intros i last H; simpl rfind_from;
    simpl List.length.
  - lia.
  - destruct (Ascii.eqb x c).
    + specialize (IH (i + 1)%Z i). lia.
    + specialize (IH (i + 1)%Z last). lia.
Qed.

(** The extension of a path whose file name ends in [c.e], where [c] is
    an ordinary character and [e] has neither dot nor slash. *)
Lemma splitext_suffix (stem e : text) (c : ascii) :
  c <> "/"%char -> c <> "."%char ->
  contains "." e = false -> contains "/" e = false ->
  splitext (stem ++ c :: "."%char :: e) = (stem ++ [c], "."%char :: e).
Proof.
  intros Hc1 Hc2 He1 He2. unfold splitext.
  set (n := List.length stem).
  assert (Hdot : rfind "." (stem ++ c :: "."%char :: e) = (Z.of_nat n + 1)%Z).
  { unfold rfind. rewrite rfind_from_app. cbn [rfind_from].
    apply Ascii.eqb_neq in Hc2. rewrite Hc2, Ascii.eqb_refl.
    rewrite rfind_from_without by assumption. subst n. lia. }
  assert (Hsep : rfind "/" (stem ++ c :: "."%char :: e) = rfind "/" stem).
  { unfold rfind. rewrite rfind_from_app. cbn [rfind_from].
    apply Ascii.eqb_neq in Hc1. rewrite Hc1.
    replace (Ascii.eqb "." "/") with false by reflexivity.
    now rewrite rfind_from_without by assumption. }
  rewrite Hdot, Hsep.
  pose proof (rfind_from_bound "/" stem 0%Z (-1)%Z ltac:(lia)) as Hb.
  fold (rfind "/" stem) in Hb. fold n in Hb.
  set (sp := rfind "/" stem) in *.
  replace (sp <? Z.of_nat n + 1)%Z with true by (symmetry; apply Z.ltb_lt; lia).
  assert (Hslice : slice (stem ++ c :: "."%char :: e) (sp + 1) (Z.of_nat n + 1)
                   = skipn (Z.to_nat (sp + 1)) stem ++ [c]).
  { unfold slice. rewrite skipn_app.
    replace (Z.to_nat (sp + 1) - List.length stem) with 0 by (fold n; lia).
    simpl skipn at 2. rewrite firstn_app, length_skipn. fold n.
    replace (Z.to_nat (Z.of_nat n + 1 - (sp + 1)) - (n - Z.to_nat (sp + 1)))
      with 1 by lia.
    rewrite firstn_all2 by (rewrite length_skipn; fold n; lia).
    reflexivity. }
  rewrite Hslice, existsb_app. cbn [existsb].
  apply Ascii.eqb_neq in Hc2. rewrite Hc2. cbn [negb orb andb].
  rewrite orb_true_r. cbn [andb].
  replace (Z.to_nat (Z.of_nat n + 1)) with (List.length (stem ++ [c]))
    by (rewrite length_app; simpl; subst n; lia).
  replace (stem ++ c :: "."%char :: e) with ((stem ++ [c]) ++ "."%char :: e)
    by (now rewrite <- app_assoc).
  rewrite firstn_app, skipn_app, firstn_all, skipn_all, Nat.sub_diag.
  simpl. now rewrite app_nil_r.
Qed.

Lemma get_file_type_suffix (stem e : text) (c : ascii) :
  c <> "/"%char -> c <> "."%char ->
  contains "." e = false -> contains "/" e = false ->
  get_file_type (stem ++ c :: "."%char :: e)
  = dict_get EXTENSION_MAP (lower ("."%char :: e)) java.
Proof.
  intros. unfold get_file_type. now rewrite splitext_suffix.
Qed.

Lemma get_file_type_hit (p : text) (k : string) (v : file_type) :
  In (k, v) EXTENSION_MAP -> lower (snd (splitext p)) = T k ->
  get_file_type p = v.
Proof.
  unfold get_file_type. intros Hin ->. simpl in Hin.
  repeat (destruct Hin as [Hin|Hin];
          [injection Hin as <- <-; reflexivity|]).
  contradiction.
Qed.

(** C9.  Dialect selection: the file type is a function of the lowered
    extension alone; an extension of the table selects its entry, any
    other the Java style.  [.kt] and [.css] select the Java style, [.yml]
    the Python style, [.svg] the XML style, and [.rs] the default. *)
Theorem get_file_type_rule (p q stem : text) (c : ascii) (k : string) (v : file_type) :
  lower (snd (splitext p)) = lower (snd (splitext q)) ->
  In (k, v) EXTENSION_MAP ->
  c <> "/"%char -> c <> "."%char ->
  get_file_type p = get_file_type q
  /\ (lower (snd (splitext p)) = T k -> get_file_type p = v)
  /\ ((forall k' v', In (k', v') EXTENSION_MAP -> lower (snd (splitext p)) <> T k') ->
      get_file_type p = java)
  /\ get_file_type (stem ++ c :: T ".kt") = java
  /\ get_file_type (stem ++ c :: T ".css") = java
  /\ get_file_type (stem ++ c :: T ".yml") = python
  /\ get_file_type (stem ++ c :: T ".svg") = xml
  /\ get_file_type (stem ++ c :: T ".rs") = java
  /\ get_file_type (stem ++ c :: T ".YmL") = python.
Proof.
  intros Hpq Hin Hc1 Hc2.
  split; [|split; [|split]].
  - unfold get_file_type. now rewrite Hpq.
  - now apply get_file_type_hit.
  - intros H. unfold get_file_type. now apply dict_get_miss.
  - cbn [T list_ascii_of_string].
    repeat split; rewrite get_file_type_suffix by (assumption || reflexivity);
      reflexivity.
Qed.

Lemma get_file_type_rule_witness :
  get_file_type (T "src/Main.KT") = get_file_type (T "lib.d/util.kt")
  /\ get_file_type (T "src/Main.KT") = java.
Proof.
  pose proof (@get_file_type_rule (T "src/Main.KT") (T "lib.d/util.kt") (T "a/")
                "b" ".kt" java eq_refl) as H.
  destruct H as [H1 [H2 _]].
  - simpl. auto.
  - discriminate.
  - discriminate.
  - split; [exact H1 | apply H2; reflexivity].
Defined.

(** ** The matcher on texts of a known shape *)

Lemma rmatch_lit {A : Type} (l rest : text) (g : captures)
      (k : text -> captures -> option A) :
  rmatch false (lit l) (l ++ rest) g k = k rest g.
Proof.
  induction l as [|c l IH]; [reflexivity|].
  destruct l as [|c' l].
  - cbn [lit rmatch app chr_matches]. now rewrite Ascii.eqb_refl.
  - change (lit (c :: c' :: l)) with (Cat (Chr c) (lit (c' :: l))).
    cbn [rmatch app chr_matches] in *. now rewrite Ascii.eqb_refl.
Qed.

Lemma rmatch_lit_mismatch {A : Type} (ic : bool) (c x : ascii) (l s : text)
      (g : captures) (k : text -> captures -> option A) :
  chr_matches ic c x = false -> rmatch ic (lit (c :: l)) (x :: s) g k = None.
Proof.
  intros H. destruct l; cbn [lit rmatch]; now rewrite H.
Qed.

Lemma rep_greedy_exact {A : Type} (p : ascii -> bool) (n : nat) (run rest : text)
      (k : text -> option A) :
  List.length run = n -> forallb p run = true ->
  rep_greedy p n (Some n) (run ++ rest) k = k rest.
Proof.
  revert n. induction run as [|c run IH]; intros n Hn Hp; simpl in Hn; subst n.
  - cbn [app]. destruct rest as [|c rest]; [reflexivity|].
    cbn [rep_greedy Nat.eqb more]. now rewrite andb_false_r.
  - cbn [forallb] in Hp. apply andb_prop in Hp as [Hc Hp].
    cbn [app rep_greedy Nat.eqb more dec option_map pred]. rewrite Hc. cbn [andb].
    rewrite (IH _ eq_refl Hp). now destruct (k rest).
Qed.

Lemma rep_greedy_run {A : Type} (p : ascii -> bool) (lo : nat) (run rest : text)
      (k : text -> option A) (x : A) :
  forallb p run = true -> lo <= List.length run -> stops p rest ->
  k rest = Some x ->
  rep_greedy p lo None (run ++ rest) k = Some x.
Proof.
  intros Hp Hlo Hstop Hk. revert lo Hlo.
  induction run as [|c run IH]; intros lo Hlo.
  - simpl in Hlo. assert (lo = 0) as -> by lia.
    cbn [app]. destruct rest as [|c rest]; cbn [rep_greedy Nat.eqb]; [assumption|].
    simpl in Hstop. now rewrite Hstop.
  - cbn [forallb] in Hp. apply andb_prop in Hp as [Hc Hp].
    cbn [app rep_greedy more dec option_map]. rewrite Hc. cbn [andb].
    rewrite (IH Hp (pred lo)); [reflexivity|]. simpl in Hlo. lia.
Qed.

Lemma years_form_cases (s : text) :
  years_form s = true ->
  year4 s = true
  \/ exists a b, s = a ++ T "-" ++ b /\ year4 a = true /\ year4 b = true.
Proof.
  unfold years_form. intros H. apply orb_prop in H as [H|H]; [now left|right].
  apply andb_prop in H as [H Hb]. apply andb_prop in H as [Ha Hh].
  apply text_eqb_eq in Hh.
  exists (firstn 4 s), (skipn 5 s). repeat split; try assumption.
  rewrite <- (firstn_skipn 4 s) at 1. f_equal.
  rewrite <- (firstn_skipn 1 (skipn 4 s)) at 1. rewrite Hh.
  now rewrite skipn_skipn.
Qed.

Lemma year4_digits (s : text) :
  year4 s = true -> List.length s = 4 /\ forallb is_digit s = true.
Proof.
  unfold year4. intros H. apply andb_prop in H as [H1 H2].
  apply Nat.eqb_eq in H1. now split.
Qed.

Lemma rmatch_years {A : Type} (years rest : text) (g : captures)
      (k : text -> captures -> option A) (x : A) :
  years_form years = true ->
  k (" "%char :: rest) g = Some x ->
  rmatch false years_re (years ++ " "%char :: rest) g k = Some x.
Proof.
  intros Hy Hk. unfold years_re, exactly. cbn [rmatch].
  apply years_form_cases in Hy as [Hy | (a & b & -> & Ha & Hb)].
  - apply year4_digits in Hy as [Hlen Hd].
    rewrite rep_greedy_exact by assumption.
    cbn [rmatch chr_matches]. rewrite Hk.
    replace (Ascii.eqb " " "-") with false by reflexivity. reflexivity.
  - apply year4_digits in Ha as [Hla Hda]. apply year4_digits in Hb as [Hlb Hdb].
    rewrite <- app_assoc. rewrite rep_greedy_exact by assumption.
    cbn [rmatch chr_matches T list_ascii_of_string app].
    rewrite Ascii.eqb_refl.
    rewrite rep_greedy_exact by assumption. now rewrite Hk.
Qed.

Lemma spdx_pattern_shape (t : file_type) :
  p_regex (spdx_pattern (FILE_TYPE_PATTERNS t))
  = spdx_shape (style_open t) (style_mid t) (style_close t)
  /\ p_ignorecase (spdx_pattern (FILE_TYPE_PATTERNS t)) = false
  /\ p_groups (spdx_pattern (FILE_TYPE_PATTERNS t)) = 3
  /\ p_groupindex (spdx_pattern (FILE_TYPE_PATTERNS t)) = spdx_groupindex.
Proof. destruct t; repeat split. Qed.

Lemma format_shape (t : file_type) (years license owner : text) :
  format (header_template (FILE_TYPE_PATTERNS t)) years license owner
  = header_shape (style_open t) (style_mid t) (style_close t) years license owner.
Proof.
  unfold header_shape.
  destruct t; cbn [format FILE_TYPE_PATTERNS header_template java_style
                   python_style xml_style map List.concat style_open style_mid
                   style_close];
    rewrite app_nil_r; repeat rewrite <- app_assoc; reflexivity.
Qed.

Lemma forallb_dot (s : text) : contains nl s = false -> forallb dot s = true.
Proof.
  unfold contains. induction s as [|c s IH]; cbn [existsb forallb]; [reflexivity|].
  intros H. apply orb_false_iff in H as [Hc Hs].
  unfold dot at 1. rewrite Ascii.eqb_sym, Hc. now apply IH.
Qed.

Lemma rmatch_shape (a b c years license owner rest : text) :
  years_form years = true ->
  owner <> [] -> contains nl owner = false ->
  license <> [] -> contains nl license = false ->
  rmatch false (spdx_shape a b c)
         (header_shape a b c years license owner ++ rest) []
         (fun s g => Some (s, g))
  = Some (rest, [(3, license); (2, owner); (1, years)]).
Proof.
  intros Hy Ho Hon Hl Hln.
  unfold spdx_shape, header_shape. cbn [seq rmatch].
  repeat (rewrite <- app_assoc || rewrite <- app_comm_cons).
  rewrite rmatch_lit.
  apply rmatch_years; [assumption|].
  cbn [chr_matches]. rewrite Ascii.eqb_refl.
  rewrite span_app. unfold plus.
  apply rep_greedy_run.
  - now apply forallb_dot.
  - destruct owner; [contradiction | simpl; lia].
  - reflexivity.
  - rewrite span_app.
    change (nl :: b ++ license ++ nl :: c ++ rest)
      with ((nl :: b) ++ license ++ (nl :: c) ++ rest).
    rewrite rmatch_lit.
    apply rep_greedy_run.
    + now apply forallb_dot.
    + destruct license; [contradiction | simpl; lia].
    + reflexivity.
    + rewrite span_app, rmatch_lit. reflexivity.
Qed.

(** ** Searching *)

Lemma search_from_hit (pat : pattern) (pos : nat) (s s' : text) (g : captures) :
  match_here pat s = Some (s', g) ->
  search_from pat pos s
  = Some {| m_start := pos; m_text := span s s'; m_rest := s'; m_captures := g |}.
Proof. intros H. destruct s; cbn [search_from]; now rewrite H. Qed.

Lemma search_from_skip (pat : pattern) (c : ascii) (pre s : text) (pos : nat) :
  (forall x s', x <> c -> match_here pat (x :: s') = None) ->
  contains c pre = false ->
  search_from pat pos (pre ++ s) = search_from pat (pos + List.length pre) s.
Proof.
  intros Hfirst. revert pos.
  induction pre as [|x pre IH]; intros pos Hpre; cbn [app List.length].
  - now rewrite Nat.add_0_r.
  - unfold contains in Hpre. cbn [existsb] in Hpre.
    apply orb_false_iff in Hpre as [Hx Hpre].
    cbn [search_from]. rewrite Hfirst.
    + rewrite IH by assumption. f_equal. lia.
    + intros ->. now rewrite Ascii.eqb_refl in Hx.
Qed.

Lemma spdx_first_char (t : file_type) (x : ascii) (s : text) :
  x <> opener t -> match_here (spdx_pattern (FILE_TYPE_PATTERNS t)) (x :: s) = None.
Proof.
  intros Hx. unfold match_here.
  destruct (spdx_pattern_shape t) as (-> & -> & _).
  unfold spdx_shape. cbn [seq rmatch].
  apply Ascii.eqb_neq in Hx.
  destruct t; cbn [style_open lines T list_ascii_of_string app];
    now rewrite rmatch_lit_mismatch.
Qed.

Lemma match_rendered (t : file_type) (years license owner rest : text) :
  years_form years = true ->
  owner <> [] -> contains nl owner = false ->
  license <> [] -> contains nl license = false ->
  match_here (spdx_pattern (FILE_TYPE_PATTERNS t))
    (format (header_template (FILE_TYPE_PATTERNS t)) years license owner ++ rest)
  = Some (rest, [(3, license); (2, owner); (1, years)]).
Proof.
  intros. unfold match_here.
  destruct (spdx_pattern_shape t) as (-> & -> & _).
  rewrite format_shape. now apply rmatch_shape.
Qed.

Lemma search_rendered (t : file_type) (pre years license owner rest : text) :
  contains (opener t) pre = false ->
  years_form years = true ->
  owner <> [] -> contains nl owner = false ->
  license <> [] -> contains nl license = false ->
  let h := format (header_template (FILE_TYPE_PATTERNS t)) years license owner in
  search (spdx_pattern (FILE_TYPE_PATTERNS t)) (pre ++ h ++ rest)
  = Some {| m_start := List.length pre; m_text := h; m_rest := rest;
            m_captures := [(3, license); (2, owner); (1, years)] |}.
Proof.
  intros Hpre Hy Ho Hon Hl Hln h. unfold search.
  rewrite (search_from_skip _ (opener t)); [|apply spdx_first_char|assumption].
  rewrite (search_from_hit _ _ _ rest [(3, license); (2, owner); (1, years)])
    by now apply match_rendered.
  now rewrite span_app.
Qed.



(** ** Replacement strings without a backslash *)

Lemma parse_template_plain (pat : pattern) (s : text) :
  contains backslash s = false ->
  parse_template pat None s = Some (map TLit s).
Proof.
  unfold contains. induction s as [|c s IH]; cbn [existsb]; intros H;
    [reflexivity|].
  apply orb_false_iff in H as [Hc Hs].
  cbn [parse_template map]. rewrite Ascii.eqb_sym, Hc. cbn [negb].
  now rewrite (IH Hs).
Qed.

Lemma expand_template_plain (m : rmatch_obj) (s : text) :
  expand_template m (map TLit s) = s.
Proof.
  unfold expand_template. induction s as [|c s IH]; [reflexivity|].
  cbn [map List.concat expand_piece app]. now rewrite IH.
Qed.

Lemma sub_first_plain (pat : pattern) (repl content : text) (m : rmatch_obj) :
  contains backslash repl = false ->
  search pat content = Some m ->
  sub_first pat repl content
  = Some (firstn (m_start m) content ++ repl ++ m_rest m).
Proof.
  intros Hr Hs. unfold sub_first.
  now rewrite parse_template_plain, Hs, expand_template_plain.
Qed.

(** ** Refreshing a rendered header *)

Lemma updated_years_form (Y : N) (years : text) :
  years_form years = true ->
  exists years',
    get_updated_years Y years = Some years'
    /\ contains backslash years' = false.
Proof.
  intros Hy. apply years_form_cases in Hy as [Hy | (a & b & -> & Ha & Hb)].
  - apply year4_digits in Hy as [_ Hd].
    rewrite get_updated_years_single by now apply digits_lack.
    eexists; split; [reflexivity|].
    destruct (text_eqb years (str Y)).
    + now apply digits_lack.
    + rewrite !contains_app. rewrite (digits_lack backslash years) by easy.
      rewrite (digits_lack backslash (str Y)) by (easy || apply str_digits).
      reflexivity.
  - apply year4_digits in Ha as [_ Ha]. apply year4_digits in Hb as [_ Hb].
    rewrite get_updated_years_range by now apply digits_lack.
    eexists; split; [reflexivity|].
    rewrite !contains_app. rewrite (digits_lack backslash a) by easy.
    rewrite (digits_lack backslash (str Y)) by (easy || apply str_digits).
    reflexivity.
Qed.

Lemma format_plain (t : file_type) (years license owner : text) :
  contains backslash years = false ->
  contains backslash license = false ->
  contains backslash owner = false ->
  contains backslash
    (format (header_template (FILE_TYPE_PATTERNS t)) years license owner) = false.
Proof.
  intros Hy Hl Ho. rewrite format_shape. unfold header_shape.
  change (" "%char :: owner ++ nl :: style_mid t ++ license ++ nl :: style_close t)
    with (T " " ++ owner ++ (nl :: style_mid t) ++ license ++ nl :: style_close t).
  rewrite !contains_app, Hy, Hl, Ho.
  now destruct t.
Qed.

Lemma refresh_rendered (Y : N) (file_path pre years license owner rest fl fo : text) :
  let t := get_file_type file_path in
  let tmpl := header_template (FILE_TYPE_PATTERNS t) in
  contains (opener t) pre = false ->
  years_form years = true -> plain owner -> plain license ->
  exists years',
    get_updated_years Y years = Some years'
    /\ update_or_insert_header Y (pre ++ format tmpl years license owner ++ rest)
         file_path fl fo
       = Some (pre ++ format tmpl years' license owner ++ rest, spdx_updated).
Proof.
  intros t tmpl Hpre Hy (Ho & Hon & Hob) (Hl & Hln & Hlb).
  destruct (updated_years_form Y years Hy) as (years' & Hup & Hyb).
  exists years'. split; [assumption|].
  unfold update_or_insert_header. fold t. subst tmpl.
  pose proof (search_rendered t pre years license owner rest Hpre Hy Ho Hon Hl Hln)
    as Hs.
  cbv zeta in Hs. rewrite Hs.
  replace (group _ _ "years") with (Some years) by now destruct t.
  replace (group _ _ "license") with (Some license) by now destruct t.
  replace (group _ _ "owner") with (Some owner) by now destruct t.
  cbn [bind]. rewrite Hup. cbn [bind].
  rewrite (sub_first_plain _ _ _ _ (format_plain t _ _ _ Hyb Hlb Hob) Hs).
  cbn [m_start m_rest bind].
  now rewrite firstn_app, firstn_all, Nat.sub_diag, firstn_O, app_nil_r.
Qed.

(** ** Inserting a header *)

Lemma longer_differs (a x : text) (c d : ascii) :
  text_eqb a (x ++ c :: d :: a) = false.
Proof.
  apply text_eqb_neq. intros E. apply (f_equal (@List.length ascii)) in E.
  rewrite length_app in E. simpl in E. lia.
Qed.

(** C5.  Insertion path: when neither pattern of the style matches, the
    result is the template rendered with the current year alone, the
    fallback license and the fallback owner, then two newlines (the end of
    the header line and one blank line), then the content as it was; the
    change type is [header_inserted] and [process_file] writes that text.
    For a Python-style file in 2025 with owner "Acme Co" and license "MIT"
    the output begins with the hash-style header naming them. *)
Theorem insert_when_no_header (Y : N) (content file_path fl fo : text) :
  let st := FILE_TYPE_PATTERNS (get_file_type file_path) in
  let h := format (header_template st) (str Y) fl fo in
  search (spdx_pattern st) content = None ->
  search (non_spdx_pattern st) content = None ->
  update_or_insert_header Y content file_path fl fo
  = Some (h ++ nl :: nl :: content, header_inserted)
  /\ process_file Y content file_path fl fo false
     = Some (header_inserted, Some (h ++ nl :: nl :: content))
  /\ (get_file_type file_path = python ->
      update_or_insert_header 2025 content file_path (T "MIT") (T "Acme Co")
      = Some (lines [ "#";
                      "# SPDX-FileCopyrightText: 2025 Acme Co";
                      "# SPDX-License-Identifier: MIT";
                      "#"; ""; "" ] ++ content,
              header_inserted)).
Proof.
  intros st h Hs Hn.
  assert (E : forall Y' fl' fo',
             update_or_insert_header Y' content file_path fl' fo'
             = Some (format (header_template st) (str Y') fl' fo'
                     ++ nl :: nl :: content, header_inserted)).
  { intros. unfold update_or_insert_header. fold st. now rewrite Hs, Hn. }
  split; [apply E | split].
  - unfold process_file. rewrite E. cbn [bind]. fold h.
    now rewrite longer_differs.
  - intros Ht. rewrite E. subst st. now rewrite Ht.
Qed.

Lemma insert_when_no_header_witness :
  update_or_insert_header 2025 (T "print('hi')") (T "tools/run.py") (T "MIT") (T "Acme Co")
  = Some (lines [ "#";
                  "# SPDX-FileCopyrightText: 2025 Acme Co";
                  "# SPDX-License-Identifier: MIT";
                  "#"; ""; "print('hi')" ],
          header_inserted).
Proof.
  refine (proj1 (insert_when_no_header 2025 (T "print('hi')") (T "tools/run.py")
                   (T "MIT") (T "Acme Co") _ _)); reflexivity.
Defined.

(** ** Headers away from the top of the file *)

Lemma opener_caseless (t : file_type) (x : ascii) :
  x <> opener t -> chr_matches true (opener t) x = false.
Proof.
  intros Hx. unfold chr_matches.
  destruct (Ascii.eqb (lower_char x) (lower_char (opener t))) eqn:E;
    [|reflexivity].
  exfalso. apply Hx. clear Hx. apply Ascii.eqb_eq in E.
  destruct t;
    destruct x as [[] [] [] [] [] [] [] []]; vm_compute in E;
      solve [reflexivity | discriminate E].
Qed.

Lemma non_spdx_first_char (t : file_type) (x : ascii) (s : text) :
  x <> opener t ->
  match_here (non_spdx_pattern (FILE_TYPE_PATTERNS t)) (x :: s) = None.
Proof.
  intros Hx. apply opener_caseless in Hx. unfold match_here.
  destruct t;
    cbn [FILE_TYPE_PATTERNS non_spdx_pattern java_style python_style xml_style
         p_regex p_ignorecase];
    change (seq (?r :: non_spdx_tail)) with (Cat r (seq non_spdx_tail));
    cbn [rmatch T list_ascii_of_string];
    now rewrite rmatch_lit_mismatch.
Qed.

Lemma search_without_opener (t : file_type) (pat : pattern) (pre s : text) :
  pat = spdx_pattern (FILE_TYPE_PATTERNS t)
  \/ pat = non_spdx_pattern (FILE_TYPE_PATTERNS t) ->
  contains (opener t) pre = false ->
  search pat (pre ++ s) = search_from pat (List.length pre) s.
Proof.
  intros Hpat Hpre. unfold search.
  rewrite (search_from_skip pat (opener t)); [reflexivity| |assumption].
  destruct Hpat as [-> | ->]; intros x s'.
  - apply spdx_first_char.
  - apply non_spdx_first_char.
Qed.

(** C6, as the specification states it, fails.  The header of [deep_file]
    starts at offset 800, on line 51, far from the top, and is recognized
    and rewritten all the same: the file is not treated as lacking a
    header. *)
Lemma deep_header_is_rewritten :
  (exists m, search (spdx_pattern java_style) deep_file = Some m
             /\ m_start m = 800)
  /\ update_or_insert_header 2025 deep_file (T "A.java") (T "Apache-2.0") (T "Lucimber UG")
     = Some (deep_file_refreshed, spdx_updated)
  /\ option_map snd
       (update_or_insert_header 2025 deep_file (T "A.java") (T "Apache-2.0")
          (T "Lucimber UG"))
     <> Some header_inserted.
Proof.
  split; [|split].
  - eexists. split; vm_compute; reflexivity.
  - vm_compute. reflexivity.
  - vm_compute. discriminate.
Qed.

Lemma search_legacy_file (n : nat) :
  search_from (spdx_pattern java_style) n legacy_file = None
  /\ search_from (non_spdx_pattern java_style) n legacy_file
     = Some (legacy_match n).
Proof. split; vm_compute; reflexivity. Qed.

Lemma convert_below_prefix (file_path pre fl fo : text) :
  get_file_type file_path = java ->
  contains "/" pre = false ->
  update_or_insert_header 2025 (pre ++ legacy_file) file_path fl fo
  = Some (pre ++ legacy_file_converted, non_spdx_converted).
Proof.
  intros Ht Hpre. unfold update_or_insert_header. rewrite Ht.
  cbn [FILE_TYPE_PATTERNS].
  destruct (search_legacy_file (List.length pre)) as [Hc Hn].
  assert (Hs : search (non_spdx_pattern java_style) (pre ++ legacy_file)
               = Some (legacy_match (List.length pre))).
  { rewrite (search_without_opener java) by (auto || assumption). exact Hn. }
  rewrite (search_without_opener java) by (auto || assumption).
  rewrite Hc, Hs.
  change (group _ _ "years") with (Some (T "2019")).
  change (group _ _ "owner") with (Some (T "Lucimber UG")).
  change (group _ _ "license") with (Some (T "MIT")).
  cbn [bind].
  change (get_updated_years 2025 (T "2019")) with (Some (T "2019-2025")).
  cbn [bind].
  rewrite (sub_first_plain _ _ _ (legacy_match (List.length pre)))
    by (reflexivity || exact Hs).
  cbn [bind legacy_match m_start m_rest].
  rewrite firstn_app, firstn_all, Nat.sub_diag, firstn_O, app_nil_r.
  reflexivity.
Qed.

(** C6, as the code has it.  Both patterns are searched through the
    whole text, so a header is found at whatever offset it first occurs:
    a canonical header after any prefix that lacks the opening character
    of the style is matched at the length of the prefix and refreshed in
    place, and the legacy header of [legacy_file] after such a prefix is
    converted in place. *)
Theorem header_found_at_any_offset
        (Y : N) (file_path pre years license owner rest fl fo : text) :
  let t := get_file_type file_path in
  let tmpl := header_template (FILE_TYPE_PATTERNS t) in
  contains (opener t) pre = false ->
  years_form years = true -> plain owner -> plain license ->
  (exists m years',
      search (spdx_pattern (FILE_TYPE_PATTERNS t))
             (pre ++ format tmpl years license owner ++ rest) = Some m
      /\ m_start m = List.length pre
      /\ get_updated_years Y years = Some years'
      /\ update_or_insert_header Y (pre ++ format tmpl years license owner ++ rest)
           file_path fl fo
         = Some (pre ++ format tmpl years' license owner ++ rest, spdx_updated))
  /\ (t = java ->
      update_or_insert_header 2025 (pre ++ legacy_file) file_path fl fo
      = Some (pre ++ legacy_file_converted, non_spdx_converted)).
Proof.
  intros t tmpl Hpre Hy Ho Hl. split.
  - destruct (refresh_rendered Y file_path pre years license owner rest fl fo
                Hpre Hy Ho Hl) as (years' & Hup & Hres).
    destruct Ho as (Ho & Hon & _), Hl as (Hl & Hln & _).
    eexists. exists years'. split; [|split; [|split]].
    + now apply search_rendered.
    + reflexivity.
    + assumption.
    + assumption.
  - intros Ht. subst t. rewrite Ht in Hpre.
    now apply convert_below_prefix.
Qed.

Lemma header_found_at_any_offset_witness :
  update_or_insert_header 2025 deep_file (T "A.java") (T "MIT") (T "Nobody")
  = Some (deep_file_refreshed, spdx_updated).
Proof.
  destruct (header_found_at_any_offset 2025 (T "A.java") filler (T "2021")
              (T "Apache-2.0") (T "Lucimber UG") (nl :: T "class A {}")
              (T "MIT") (T "Nobody"))
    as [(m & years' & _ & _ & Hup & Hres) _].
  - reflexivity.
  - reflexivity.
  - repeat split; (discriminate || reflexivity).
  - repeat split; (discriminate || reflexivity).
  - vm_compute in Hup. injection Hup as <-. exact Hres.
Defined.

(** ** What a successful match says about the text *)

Lemma rep_greedy_inv {A : Type} (p : ascii -> bool) (s : text) :
  forall (lo : nat) (hi : option nat) (k : text -> option A) (a : A),
  rep_greedy p lo hi s k = Some a ->
  exists run rest,
    s = run ++ rest /\ forallb p run = true
    /\ lo <= List.length run /\ within hi (List.length run)
    /\ k rest = Some a.
Proof.
  induction s as [|c s IH]; intros lo hi k a H.
  - cbn [rep_greedy] in H. destruct (Nat.eqb lo 0) eqn:E; [|discriminate].
    apply Nat.eqb_eq in E. subst lo.
    exists [], []. repeat split; try assumption; try reflexivity.
    destruct hi; simpl; lia.
  - cbn [rep_greedy] in H.
    assert (Hstop : (if Nat.eqb lo 0 then k (c :: s) else None) = Some a ->
                    exists run rest,
                      c :: s = run ++ rest /\ forallb p run = true
                      /\ lo <= List.length run /\ within hi (List.length run)
                      /\ k rest = Some a).
    { intros Hs. destruct (Nat.eqb lo 0) eqn:E; [|discriminate].
      apply Nat.eqb_eq in E. subst lo.
      exists [], (c :: s). repeat split; try assumption; try reflexivity.
      destruct hi; simpl; lia. }
    destruct (p c && more hi) eqn:Hc; [|now apply Hstop].
    destruct (rep_greedy p (pred lo) (dec hi) s k) as [a'|] eqn:Hrec;
      [|now apply Hstop].
    injection H as ->.
    apply IH in Hrec as (run & rest & -> & Hp & Hlo & Hhi & Hk).
    apply andb_prop in Hc as [Hpc Hmore].
    exists (c :: run), rest. cbn [forallb List.length app].
    rewrite Hpc, Hp.
    split; [reflexivity | split; [reflexivity | split; [lia | split; [|assumption]]]].
    destruct hi as [[|h]|]; simpl in *; try discriminate; try lia.
Qed.

Lemma rep_lazy_inv {A : Type} (p : ascii -> bool) (s : text) :
  forall (lo : nat) (hi : option nat) (k : text -> option A) (a : A),
  rep_lazy p lo hi s k = Some a ->
  exists run rest,
    s = run ++ rest /\ forallb p run = true
    /\ lo <= List.length run /\ within hi (List.length run)
    /\ k rest = Some a.
Proof.
  induction s as [|c s IH]; intros lo hi k a H.
  - cbn [rep_lazy] in H. destruct (Nat.eqb lo 0) eqn:E.
    + apply Nat.eqb_eq in E. subst lo.
      destruct (k []) eqn:Hk; [|discriminate]. injection H as ->.
      exists [], []. repeat split; try assumption; try reflexivity.
      destruct hi; simpl; lia.
    + discriminate.
  - cbn [rep_lazy] in H.
    destruct (if Nat.eqb lo 0 then k (c :: s) else None) as [a'|] eqn:Hfirst.
    + injection H as ->.
      destruct (Nat.eqb lo 0) eqn:E; [|discriminate].
      apply Nat.eqb_eq in E. subst lo.
      exists [], (c :: s). repeat split; try assumption; try reflexivity.
      destruct hi; simpl; lia.
    + destruct (p c && more hi) eqn:Hc; [|discriminate].
      apply IH in H as (run & rest & -> & Hp & Hlo & Hhi & Hk).
      apply andb_prop in Hc as [Hpc Hmore].
      exists (c :: run), rest. cbn [forallb List.length app].
      rewrite Hpc, Hp.
      split; [reflexivity | split; [reflexivity | split; [lia | split; [|assumption]]]].
      destruct hi as [[|h]|]; simpl in *; try discriminate; try lia.
Qed.

(** Whatever the pattern, a match consumes a prefix of the text. *)
Lemma rmatch_consumes {A : Type} (ic : bool) (r : regex) :
  forall (s : text) (g : captures) (k : text -> captures -> option A) (a : A),
  rmatch ic r s g k = Some a ->
  exists u s' g', s = u ++ s' /\ k s' g' = Some a.
Proof.
  induction r as [| c | p | r1 IH1 r2 IH2 | r1 IH1 r2 IH2 | i r IH | r IH
                  | lazy lo hi p];
    intros s g k a H; cbn [rmatch] in H.
  - now exists [], s, g.
  - destruct s as [|x s]; [discriminate|].
    destruct (chr_matches ic c x); [|discriminate]. now exists [x], s, g.
  - destruct s as [|x s]; [discriminate|].
    destruct (p x); [|discriminate]. now exists [x], s, g.
  - apply IH1 in H as (u1 & s1 & g1 & -> & H).
    apply IH2 in H as (u2 & s2 & g2 & -> & H).
    exists (u1 ++ u2), s2, g2. now rewrite <- app_assoc.
  - destruct (rmatch ic r1 s g k) as [a'|] eqn:E.
    + injection H as ->. now apply IH1 in E.
    + now apply IH2 in H.
  - apply IH in H as (u & s' & g' & -> & H). now exists u, s', ((i, span (u ++ s') s') :: g').
  - destruct (rmatch ic r s g k) as [a'|] eqn:E.
    + injection H as ->. now apply IH in E.
    + now exists [], s, g.
  - destruct lazy.
    + apply rep_lazy_inv in H as (run & rest & -> & _ & _ & _ & H).
      now exists run, rest, g.
    + apply rep_greedy_inv in H as (run & rest & -> & _ & _ & _ & H).
      now exists run, rest, g.
Qed.

Lemma match_here_consumes (pat : pattern) (s s' : text) (g : captures) :
  match_here pat s = Some (s', g) -> s = span s s' ++ s'.
Proof.
  unfold match_here. intros H.
  apply rmatch_consumes in H as (u & s1 & g1 & -> & H).
  injection H as -> ->. now rewrite span_app.
Qed.

Lemma search_from_inv (pat : pattern) (s : text) :
  forall (pos : nat) (m : rmatch_obj),
  search_from pat pos s = Some m ->
  exists pre,
    s = pre ++ m_text m ++ m_rest m
    /\ m_start m = pos + List.length pre
    /\ match_here pat (m_text m ++ m_rest m) = Some (m_rest m, m_captures m).
Proof.
  induction s as [|c s IH]; intros pos m H; cbn [search_from] in H.
  - destruct (match_here pat []) as [[s' g]|] eqn:E; [|discriminate].
    injection H as <-. cbn [m_text m_rest m_start m_captures].
    pose proof (match_here_consumes _ _ _ _ E) as Hs.
    exists []. rewrite <- Hs. cbn [app List.length]. now rewrite Nat.add_0_r.
  - destruct (match_here pat (c :: s)) as [[s' g]|] eqn:E.
    + injection H as <-. cbn [m_text m_rest m_start m_captures].
      pose proof (match_here_consumes _ _ _ _ E) as Hs.
      exists []. rewrite <- Hs. cbn [app List.length]. now rewrite Nat.add_0_r.
    + apply IH in H as (pre & Hs & Hstart & Hm).
      exists (c :: pre). cbn [app List.length]. rewrite <- Hs.
      repeat split; [lia | assumption].
Qed.

Lemma search_inv (pat : pattern) (s : text) (m : rmatch_obj) :
  search pat s = Some m ->
  s = firstn (m_start m) s ++ m_text m ++ m_rest m
  /\ match_here pat (m_text m ++ m_rest m) = Some (m_rest m, m_captures m).
Proof.
  intros H. apply search_from_inv in H as (pre & Hs & Hstart & Hm).
  split; [|assumption]. rewrite Hstart. cbn [Nat.add].
  rewrite Hs at 2. rewrite firstn_app, firstn_all, Nat.sub_diag, firstn_O, app_nil_r.
  exact Hs.
Qed.

Lemma rmatch_lit_inv {A : Type} (l : text) :
  forall (s : text) (g : captures) (k : text -> captures -> option A) (a : A),
  rmatch false (lit l) s g k = Some a ->
  exists rest, s = l ++ rest /\ k rest g = Some a.
Proof.
  induction l as [|c l IH]; intros s g k a H.
  - now exists s.
  - assert (Hc : forall k', rmatch false (Chr c) s g k' = Some a ->
                            exists s', s = c :: s' /\ k' s' g = Some a).
    { intros k' Hk. cbn [rmatch chr_matches] in Hk.
      destruct s as [|x s]; [discriminate|].
      destruct (Ascii.eqb x c) eqn:E; [|discriminate].
      apply Ascii.eqb_eq in E. subst x. now exists s. }
    destruct l as [|c' l].
    + apply Hc in H as (s' & -> & H). now exists s'.
    + destruct (Hc (fun s' g' => rmatch false (lit (c' :: l)) s' g' k) H)
        as (s' & -> & H').
      apply IH in H' as (rest & -> & H'). now exists rest.
Qed.

Lemma years_form_single (s : text) : year4 s = true -> years_form s = true.
Proof. unfold years_form. now intros ->. Qed.

Lemma years_form_range (a b : text) :
  year4 a = true -> year4 b = true -> years_form (a ++ "-"%char :: b) = true.
Proof.
  intros Ha Hb. unfold years_form.
  pose proof (year4_digits _ Ha) as [Hla _].
  destruct a as [|a1 [|a2 [|a3 [|a4 [|a5 a]]]]]; try discriminate Hla.
  cbn [app firstn skipn]. rewrite Ha, Hb.
  change (text_eqb ["-"%char] (T "-")) with true.
  now rewrite orb_true_r.
Qed.

Lemma hyphen_caseless (ic : bool) (x : ascii) :
  chr_matches ic "-" x = true -> x = "-"%char.
Proof.
  unfold chr_matches. intros H.
  destruct ic; apply Ascii.eqb_eq in H; [|assumption].
  destruct x as [[] [] [] [] [] [] [] []]; vm_compute in H;
    solve [reflexivity | discriminate H].
Qed.

Lemma rmatch_opt_inv {A : Type} (ic : bool) (r : regex) (s : text) (g : captures)
      (k : text -> captures -> option A) (a : A) :
  rmatch ic (Opt r) s g k = Some a ->
  rmatch ic r s g k = Some a \/ k s g = Some a.
Proof.
  cbn [rmatch]. destruct (rmatch ic r s g k) as [a'|]; [left|right]; assumption.
Qed.

Lemma rmatch_years_inv {A : Type} (ic : bool) (s : text) (g : captures)
      (k : text -> captures -> option A) (a : A) :
  rmatch ic years_re s g k = Some a ->
  exists years rest,
    s = years ++ rest /\ years_form years = true /\ k rest g = Some a.
Proof.
  unfold years_re, exactly. intros H.
  change (rep_greedy is_digit 4 (Some 4) s
            (fun s' => rmatch ic (Opt (Cat (Chr "-") (Repeat false 4 (Some 4) is_digit)))
                         s' g k) = Some a) in H.
  apply rep_greedy_inv in H as (y1 & r1 & -> & Hd1 & Hlo1 & Hhi1 & H).
  simpl in Hhi1.
  assert (Hy1 : year4 y1 = true).
  { unfold year4. rewrite Hd1, andb_true_r. apply Nat.eqb_eq. lia. }
  apply rmatch_opt_inv in H as [H|H].
  - cbn [rmatch] in H. destruct r1 as [|x r1]; [discriminate|].
    destruct (chr_matches ic "-" x) eqn:Ex; [|discriminate].
    apply hyphen_caseless in Ex. subst x.
    apply rep_greedy_inv in H as (y2 & r2 & -> & Hd2 & Hlo2 & Hhi2 & H).
    simpl in Hhi2.
    exists (y1 ++ "-"%char :: y2), r2. split; [|split; [|assumption]].
    + now rewrite <- app_assoc.
    + apply years_form_range; [assumption|].
      unfold year4. rewrite Hd2, andb_true_r. apply Nat.eqb_eq. lia.
  - exists y1, r1. split; [reflexivity|]. split; [|assumption].
    now apply years_form_single.
Qed.

Lemma dot_run (s : text) : forallb dot s = true -> contains nl s = false.
Proof.
  unfold contains. induction s as [|c s IH]; cbn [existsb forallb]; [reflexivity|].
  intros H. apply andb_prop in H as [Hc Hs]. unfold dot in Hc.
  rewrite Ascii.eqb_sym. apply negb_true_iff in Hc. rewrite Hc. now apply IH.
Qed.

Lemma nonempty_length (s : text) : 1 <= List.length s -> s <> [].
Proof. destruct s; simpl; [lia | discriminate]. Qed.

Lemma rmatch_shape_inv (a b c s rest : text) (g : captures) :
  rmatch false (spdx_shape a b c) s [] (fun s' g' => Some (s', g'))
  = Some (rest, g) ->
  exists years license owner,
    s = header_shape a b c years license owner ++ rest
    /\ g = [(3, license); (2, owner); (1, years)]
    /\ years_form years = true
    /\ owner <> [] /\ contains nl owner = false
    /\ license <> [] /\ contains nl license = false.
Proof.
  unfold spdx_shape, plus. cbn [seq rmatch]. intros H.
  apply rmatch_lit_inv in H as (s1 & -> & H).
  apply rmatch_years_inv in H as (years & s2 & -> & Hy & H).
  rewrite span_app in H.
  destruct s2 as [|x s2]; [discriminate|].
  cbn [chr_matches] in H. destruct (Ascii.eqb x " ") eqn:Ex; [|discriminate].
  apply Ascii.eqb_eq in Ex. subst x.
  apply rep_greedy_inv in H as (owner & s3 & -> & Ho & Hlo & _ & H).
  rewrite span_app in H.
  apply rmatch_lit_inv in H as (s4 & -> & H).
  apply rep_greedy_inv in H as (license & s5 & -> & Hl & Hll & _ & H).
  rewrite span_app in H.
  apply rmatch_lit_inv in H as (s6 & -> & H).
  injection H as -> <-.
  exists years, license, owner. unfold header_shape.
  repeat (rewrite <- app_assoc || rewrite <- app_comm_cons).
  repeat split; auto using dot_run, nonempty_length.
Qed.

Lemma match_here_spdx_inv (t : file_type) (s rest : text) (g : captures) :
  match_here (spdx_pattern (FILE_TYPE_PATTERNS t)) s = Some (rest, g) ->
  exists years license owner,
    s = format (header_template (FILE_TYPE_PATTERNS t)) years license owner ++ rest
    /\ g = [(3, license); (2, owner); (1, years)]
    /\ years_form years = true
    /\ owner <> [] /\ contains nl owner = false
    /\ license <> [] /\ contains nl license = false.
Proof.
  unfold match_here. destruct (spdx_pattern_shape t) as (-> & -> & _).
  intros H. apply rmatch_shape_inv in H as (years & license & owner & H).
  exists years, license, owner. now rewrite format_shape.
Qed.

(** ** Refreshing any canonical header *)

Lemma refresh_frame (Y : N) (content file_path fl fo : text) (m : rmatch_obj) :
  let t := get_file_type file_path in
  let pat := spdx_pattern (FILE_TYPE_PATTERNS t) in
  let tmpl := header_template (FILE_TYPE_PATTERNS t) in
  search pat content = Some m ->
  exists years license owner years',
    group pat m "years" = Some years
    /\ group pat m "license" = Some license
    /\ group pat m "owner" = Some owner
    /\ m_text m = format tmpl years license owner
    /\ content = firstn (m_start m) content ++ m_text m ++ m_rest m
    /\ get_updated_years Y years = Some years'
    /\ (contains backslash owner = false -> contains backslash license = false ->
        update_or_insert_header Y content file_path fl fo
        = Some (firstn (m_start m) content
                ++ format tmpl years' license owner ++ m_rest m,
                spdx_updated)).
Proof.
  intros t pat tmpl Hs.
  destruct (search_inv _ _ _ Hs) as [Hframe Hm].
  apply match_here_spdx_inv in Hm
    as (years & license & owner & Htext & Hcap & Hy & _).
  apply app_inv_tail in Htext.
  destruct (updated_years_form Y years Hy) as (years' & Hup & Hyb).
  assert (Hgy : group pat m "years" = Some years)
    by (subst pat; unfold group; rewrite Hcap; now destruct t).
  assert (Hgl : group pat m "license" = Some license)
    by (subst pat; unfold group; rewrite Hcap; now destruct t).
  assert (Hgo : group pat m "owner" = Some owner)
    by (subst pat; unfold group; rewrite Hcap; now destruct t).
  exists years, license, owner, years'.
  repeat (split; [assumption|]).
  intros Hob Hlb. unfold update_or_insert_header. fold t. fold pat.
  rewrite Hs, Hgy, Hgl, Hgo. cbn [bind]. rewrite Hup. cbn [bind].
  rewrite (sub_first_plain pat _ _ m) by (now apply format_plain || assumption).
  reflexivity.
Qed.

(** ** What a legacy match captures *)

Lemma rmatch_groupless_inv {A : Type} (ic : bool) (r : regex) :
  groupless r = true ->
  forall (s : text) (g : captures) (k : text -> captures -> option A) (a : A),
  rmatch ic r s g k = Some a ->
  exists u s', s = u ++ s' /\ k s' g = Some a.
Proof.
  induction r as [| c | p | r1 IH1 r2 IH2 | r1 IH1 r2 IH2 | i r IH | r IH
                  | lazy lo hi p];
    cbn [groupless]; intros Hg s g k a H; cbn [rmatch] in H.
  - now exists [], s.
  - destruct s as [|x s]; [discriminate|].
    destruct (chr_matches ic c x); [|discriminate]. now exists [x], s.
  - destruct s as [|x s]; [discriminate|].
    destruct (p x); [|discriminate]. now exists [x], s.
  - apply andb_prop in Hg as [Hg1 Hg2].
    apply (IH1 Hg1) in H as (u1 & s1 & -> & H).
    apply (IH2 Hg2) in H as (u2 & s2 & -> & H).
    exists (u1 ++ u2), s2. now rewrite <- app_assoc.
  - apply andb_prop in Hg as [Hg1 Hg2].
    destruct (rmatch ic r1 s g k) as [a'|] eqn:E.
    + injection H as ->. now apply (IH1 Hg1) in E.
    + now apply (IH2 Hg2) in H.
  - discriminate.
  - destruct (rmatch ic r s g k) as [a'|] eqn:E.
    + injection H as ->. now apply (IH Hg) in E.
    + now exists [], s.
  - destruct lazy.
    + apply rep_lazy_inv in H as (run & rest & -> & _ & _ & _ & H).
      now exists run, rest.
    + apply rep_greedy_inv in H as (run & rest & -> & _ & _ & _ & H).
      now exists run, rest.
Qed.

Lemma rmatch_group_inv {A : Type} (ic : bool) (i : nat) (r : regex)
      (s : text) (g : captures) (k : text -> captures -> option A) (a : A) :
  groupless r = true ->
  rmatch ic (Group i r) s g k = Some a ->
  exists u s', s = u ++ s' /\ k s' ((i, u) :: g) = Some a.
Proof.
  intros Hg H. cbn [rmatch] in H.
  apply (rmatch_groupless_inv ic r Hg) in H as (u & s' & -> & H).
  rewrite span_app in H. now exists u, s'.
Qed.

Lemma non_spdx_pattern_shape (t : file_type) :
  p_regex (non_spdx_pattern (FILE_TYPE_PATTERNS t)) = legacy_shape (legacy_open t)
  /\ p_ignorecase (non_spdx_pattern (FILE_TYPE_PATTERNS t)) = true
  /\ p_groupindex (non_spdx_pattern (FILE_TYPE_PATTERNS t)) = non_spdx_groupindex.
Proof. destruct t; repeat split. Qed.

Lemma groupless_lit (l : text) : groupless (lit l) = true.
Proof.
  induction l as [|c l IH]; [reflexivity|].
  destruct l; [reflexivity|].
  change (lit (c :: a :: l)) with (Cat (Chr c) (lit (a :: l))).
  cbn [groupless]. now rewrite IH.
Qed.

Ltac split_cat H :=
  match type of H with
  | rmatch ?ic (Cat ?a ?b) ?s ?g ?k = Some ?x =>
      change (rmatch ic a s g (fun s' g' => rmatch ic b s' g' k) = Some x) in H
  end.

Ltac skip_groupless H u :=
  split_cat H;
  apply rmatch_groupless_inv in H as (u & ? & -> & H);
  [cbv beta in H | solve [reflexivity | apply groupless_lit]].

Ltac take_group H u :=
  split_cat H;
  apply rmatch_group_inv in H as (u & ? & -> & H);
  [cbv beta in H | reflexivity].

Lemma rmatch_group_years_inv {A : Type} (ic : bool) (i : nat) (s : text)
      (g : captures) (k : text -> captures -> option A) (a : A) :
  rmatch ic (Group i years_re) s g k = Some a ->
  exists years rest,
    s = years ++ rest /\ years_form years = true
    /\ k rest ((i, years) :: g) = Some a.
Proof.
  cbn [rmatch]. intros H.
  apply rmatch_years_inv in H as (years & rest & -> & Hy & H).
  rewrite span_app in H. now exists years, rest.
Qed.

Lemma rmatch_legacy_inv (op s rest : text) (g : captures) :
  rmatch true (legacy_shape op) s [] (fun s' g' => Some (s', g')) = Some (rest, g) ->
  exists before years mid owner after license,
    s = before ++ years ++ mid ++ owner ++ after ++ license ++ rest
    /\ years_form years = true
    /\ capture g 2 = Some years
    /\ capture g 3 = Some owner
    /\ capture g 5 = Some license.
Proof.
  unfold legacy_shape, non_spdx_tail. cbn [seq]. intros H.
  skip_groupless H u1. skip_groupless H u2. take_group H u3.
  skip_groupless H u4.
  split_cat H.
  apply rmatch_group_years_inv in H as (years & s5 & -> & Hy & H).
  cbv beta in H.
  skip_groupless H u6. take_group H owner.
  skip_groupless H u8. skip_groupless H u9. skip_groupless H u10.
  split_cat H. apply rmatch_opt_inv in H as [H|H].
  - apply rmatch_group_inv in H as (u11 & ? & -> & H); [|reflexivity].
    apply rmatch_group_inv in H as (license & ? & -> & H); [|reflexivity].
    injection H as -> <-.
    exists (u1 ++ u2 ++ u3 ++ u4), years, u6, owner, (u8 ++ u9 ++ u10 ++ u11), license.
    repeat rewrite <- app_assoc. repeat split; assumption || reflexivity.
  - apply rmatch_group_inv in H as (license & ? & -> & H); [|reflexivity].
    injection H as -> <-.
    exists (u1 ++ u2 ++ u3 ++ u4), years, u6, owner, (u8 ++ u9 ++ u10), license.
    repeat rewrite <- app_assoc. repeat split; assumption || reflexivity.
Qed.

Lemma match_here_non_spdx_inv (t : file_type) (s rest : text) (g : captures) :
  match_here (non_spdx_pattern (FILE_TYPE_PATTERNS t)) s = Some (rest, g) ->
  exists before years mid owner after license,
    s = before ++ years ++ mid ++ owner ++ after ++ license ++ rest
    /\ years_form years = true
    /\ capture g 2 = Some years
    /\ capture g 3 = Some owner
    /\ capture g 5 = Some license.
Proof.
  unfold match_here. destruct (non_spdx_pattern_shape t) as (-> & -> & _).
  apply rmatch_legacy_inv.
Qed.

(** ** Converting any legacy header *)

Lemma convert_frame (Y : N) (content file_path fl fo : text) (m : rmatch_obj) :
  let t := get_file_type file_path in
  let pat := non_spdx_pattern (FILE_TYPE_PATTERNS t) in
  let tmpl := header_template (FILE_TYPE_PATTERNS t) in
  search (spdx_pattern (FILE_TYPE_PATTERNS t)) content = None ->
  search pat content = Some m ->
  exists years raw_owner raw_license years',
    group pat m "years" = Some years
    /\ group pat m "owner" = Some raw_owner
    /\ group pat m "license" = Some raw_license
    /\ content = firstn (m_start m) content ++ m_text m ++ m_rest m
    /\ (exists a b, content = a ++ raw_owner ++ b)
    /\ get_updated_years Y years = Some years'
    /\ (contains backslash (strip raw_owner) = false ->
        contains backslash (normalize_license raw_license fl) = false ->
        update_or_insert_header Y content file_path fl fo
        = Some (firstn (m_start m) content
                ++ format tmpl years' (normalize_license raw_license fl)
                     (strip raw_owner)
                ++ m_rest m,
                non_spdx_converted)).
Proof.
  intros t pat tmpl Hc Hs.
  destruct (search_inv _ _ _ Hs) as [Hframe Hm].
  apply match_here_non_spdx_inv in Hm
    as (before & years & mid & owner & after & license & Htext & Hy & Hg2 & Hg3 & Hg5).
  destruct (updated_years_form Y years Hy) as (years' & Hup & Hyb).
  assert (Hgy : group pat m "years" = Some years)
    by (subst pat; unfold group; now destruct t).
  assert (Hgo : group pat m "owner" = Some owner)
    by (subst pat; unfold group; now destruct t).
  assert (Hgl : group pat m "license" = Some license)
    by (subst pat; unfold group; now destruct t).
  exists years, owner, license, years'.
  repeat (split; [assumption|]).
  split; [|split; [assumption|]].
  - exists (firstn (m_start m) content ++ before ++ years ++ mid),
           (after ++ license ++ m_rest m).
    rewrite Hframe at 1. rewrite Htext. now repeat rewrite <- app_assoc.
  - intros Hob Hlb. unfold update_or_insert_header. fold t. fold pat.
    rewrite Hc, Hs, Hgy, Hgl, Hgo. cbn [bind]. rewrite Hup. cbn [bind].
    rewrite (sub_first_plain pat _ _ m) by (now apply format_plain || assumption).
    reflexivity.
Qed.

(** ** Texts without a backslash *)

Lemma contains_rev (c : ascii) (s : text) : contains c (rev s) = contains c s.
Proof.
  destruct (contains c s) eqn:E.
  - unfold contains in *. apply existsb_exists in E as (x & Hin & Hx).
    apply existsb_exists. exists x. split; [now apply in_rev in Hin | assumption].
  - apply contains_false_forall in E. apply contains_false_forall.
    now apply Forall_rev.
Qed.

Lemma contains_lstrip (c : ascii) (s : text) :
  contains c s = false -> contains c (lstrip s) = false.
Proof.
  unfold contains. induction s as [|x s IH]; cbn [lstrip existsb]; [reflexivity|].
  intros H. destruct (is_space x); [|assumption].
  apply orb_false_iff in H as [_ H]. now apply IH.
Qed.

Lemma contains_strip (c : ascii) (s : text) :
  contains c s = false -> contains c (strip s) = false.
Proof.
  intros H. unfold strip, rstrip. rewrite contains_rev.
  apply contains_lstrip. rewrite contains_rev. now apply contains_lstrip.
Qed.

Lemma normalize_license_plain (name fallback : text) :
  contains backslash fallback = false ->
  contains backslash (normalize_license name fallback) = false.
Proof.
  intros H. unfold normalize_license.
  cbn [LICENSE_NAME_MAP map fst snd dict_get].
  repeat match goal with
         | |- context [if ?b then _ else _] => destruct b; [reflexivity|]
         end.
  assumption.
Qed.

Lemma contains_part (c : ascii) (a s b : text) :
  contains c (a ++ s ++ b) = false -> contains c s = false.
Proof.
  rewrite !contains_app. intros H.
  apply orb_false_iff in H as [_ H]. now apply orb_false_iff in H as [H _].
Qed.

(** X4.  The resolver returns on every text without a backslash, given
    a fallback license without one: it raises on no such input. *)
Lemma resolver_returns_without_backslash (Y : N) (content file_path fl fo : text) :
  contains backslash content = false ->
  contains backslash fl = false ->
  exists updated change,
    update_or_insert_header Y content file_path fl fo = Some (updated, change).
Proof.
  intros Hcb Hfb.
  set (t := get_file_type file_path).
  destruct (search (spdx_pattern (FILE_TYPE_PATTERNS t)) content) as [m|] eqn:Hs.
  - destruct (refresh_frame Y content file_path fl fo m Hs)
      as (years & license & owner & years' & _ & _ & _ & Htext & Hframe & _ & Hres).
    rewrite Hframe in Hcb. apply contains_part in Hcb.
    rewrite Htext in Hcb. fold t in Hcb. rewrite format_shape in Hcb.
    unfold header_shape in Hcb.
    change (" "%char :: owner ++ nl :: style_mid t ++ license ++ nl :: style_close t)
      with (T " " ++ owner ++ (nl :: style_mid t) ++ license ++ nl :: style_close t)
      in Hcb.
    rewrite !contains_app in Hcb.
    repeat (apply orb_false_iff in Hcb as [? Hcb]).
    eexists _, _. apply Hres; assumption.
  - destruct (search (non_spdx_pattern (FILE_TYPE_PATTERNS t)) content) as [m|] eqn:Hn.
    + destruct (convert_frame Y content file_path fl fo m Hs Hn)
        as (years & owner & license & years' & _ & _ & _ & _ & (a & b & Hsub) & _ & Hres).
      rewrite Hsub in Hcb. apply contains_part in Hcb.
      eexists _, _. apply Hres.
      * now apply contains_strip.
      * now apply normalize_license_plain.
    + eexists _, _. unfold update_or_insert_header. fold t. now rewrite Hs, Hn.
Qed.

(** ** Headers whose fields hold a backslash

    [update_or_insert_header] hands the rendered header to [sub] as the
    replacement, and [sub] reads a replacement as a template.  A header
    without backslash comes out as rendered ([sub_first_plain]); the
    lemmas below evaluate the resolver on headers with one. *)

(** X3.  Without a backslash in owner and license, a canonical header
    whose years the update leaves as they are (its end year is the
    current year) is left alone: the text is the same and nothing is
    written. *)
Lemma same_year_unchanged (Y : N) (content file_path fl fo years license owner : text)
      (m : rmatch_obj) (dry_run : bool) :
  let pat := spdx_pattern (FILE_TYPE_PATTERNS (get_file_type file_path)) in
  search pat content = Some m ->
  group pat m "years" = Some years -> get_updated_years Y years = Some years ->
  group pat m "owner" = Some owner -> contains backslash owner = false ->
  group pat m "license" = Some license -> contains backslash license = false ->
  process_file Y content file_path fl fo dry_run = Some (unchanged, None).
Proof.
  intros pat Hs Hgy Hsame Hgo Hob Hgl Hlb.
  destruct (refresh_frame Y content file_path fl fo m Hs)
    as (years0 & license0 & owner0 & years' & Hy0 & Hl0 & Ho0 & Htext & Hframe
        & Hup & Hres).
  fold pat in Hy0, Hl0, Ho0.
  rewrite Hgy in Hy0. injection Hy0 as <-.
  rewrite Hgl in Hl0. injection Hl0 as <-.
  rewrite Hgo in Ho0. injection Ho0 as <-.
  rewrite Hsame in Hup. injection Hup as <-.
  unfold process_file. rewrite (Hres Hob Hlb). cbn [bind].
  rewrite <- Htext, <- Hframe. now rewrite text_eqb_refl.
Qed.

(** C1, at a file the code breaks on.  The header of
    [current_header_with_escape] is canonical and its year is the current
    one, 2025, yet [process_file] reports [spdx_updated] and writes a
    different text: the two characters backslash and n of the owner
    come out as a newline.  The second run no longer finds the header
    and inserts another one above it. *)
Theorem same_year_header_rewritten :
  (exists m, search (spdx_pattern java_style) current_header_with_escape = Some m
             /\ m_start m = 0
             /\ group (spdx_pattern java_style) m "years" = Some (str 2025)
             /\ group (spdx_pattern java_style) m "owner" = Some (T "ACME\north"))
  /\ process_file 2025 current_header_with_escape (T "A.java") (T "Apache-2.0")
       (T "Lucimber UG") false
     = Some (spdx_updated, Some current_header_broken)
  /\ current_header_broken <> current_header_with_escape
  /\ process_file 2025 current_header_broken (T "A.java") (T "Apache-2.0")
       (T "Lucimber UG") false
     = Some (header_inserted,
             Some (format (header_template java_style) (str 2025) (T "Apache-2.0")
                     (T "Lucimber UG")
                   ++ nl :: nl :: current_header_broken)).
Proof.
  split; [|split; [|split]].
  - eexists. repeat split; vm_compute; reflexivity.
  - vm_compute. reflexivity.
  - intros E. apply text_eqb_eq in E. vm_compute in E. discriminate E.
  - vm_compute. reflexivity.
Qed.

(** C3, at a file the code breaks on.  The canonical pattern matches at
    offset 13 and captures the owner with its two backslashes; the text
    returned holds one backslash there, so it is not the original with
    the matched span replaced by the header rendered from the captured
    owner. *)
Theorem refresh_rewrites_escapes :
  exists m,
    search (spdx_pattern java_style) header_with_double_backslash = Some m
    /\ m_start m = 13
    /\ group (spdx_pattern java_style) m "owner" = Some (T "R\\D Labs")
    /\ group (spdx_pattern java_style) m "license" = Some (T "MIT")
    /\ get_updated_years 2025 (T "2021") = Some (T "2021-2025")
    /\ update_or_insert_header 2025 header_with_double_backslash (T "A.java")
         (T "Apache-2.0") (T "Lucimber UG")
       = Some (firstn 13 header_with_double_backslash
               ++ format (header_template java_style) (T "2021-2025") (T "MIT")
                    (T "R\D Labs")
               ++ m_rest m,
               spdx_updated)
    /\ update_or_insert_header 2025 header_with_double_backslash (T "A.java")
         (T "Apache-2.0") (T "Lucimber UG")
       <> Some (firstn 13 header_with_double_backslash
                ++ format (header_template java_style) (T "2021-2025") (T "MIT")
                     (T "R\\D Labs")
                ++ m_rest m,
                spdx_updated).
Proof.
  eexists. split; [vm_compute; reflexivity|].
  repeat split; try (vm_compute; reflexivity).
  vm_compute. discriminate.
Qed.

(** C4, at a file the code breaks on.  The legacy pattern matches at the
    top and captures the owner as written; the text put in place of the
    match is not the rendered header, since the backslash and n of the
    owner come out as a newline, and the canonical pattern matches
    nowhere in the result. *)
Theorem conversion_rewrites_escapes :
  search (spdx_pattern java_style) legacy_with_escape = None
  /\ (exists m, search (non_spdx_pattern java_style) legacy_with_escape = Some m
                /\ m_start m = 0
                /\ group (non_spdx_pattern java_style) m "owner" = Some (T "ACME\north")
                /\ group (non_spdx_pattern java_style) m "license" = Some (T "MIT")
                /\ legacy_with_escape_converted
                   <> format (header_template java_style) (T "2021-2025") (T "MIT")
                        (T "ACME\north") ++ m_rest m)
  /\ update_or_insert_header 2025 legacy_with_escape (T "A.java") (T "Apache-2.0")
       (T "Lucimber UG")
     = Some (legacy_with_escape_converted, non_spdx_converted)
  /\ search (spdx_pattern java_style) legacy_with_escape_converted = None.
Proof.
  split; [vm_compute; reflexivity|].
  split; [|split; vm_compute; reflexivity].
  eexists. split; [vm_compute; reflexivity|].
  repeat split; try (vm_compute; reflexivity).
  intros E. apply text_eqb_eq in E. vm_compute in E. discriminate E.
Qed.

(** A legacy header whose owner is blank: the owner is trimmed to the
    empty string, and the canonical pattern, which wants an owner of one
    character at least, does not match the header that comes out. *)
Lemma conversion_with_blank_owner :
  update_or_insert_header 2025 legacy_with_blank_owner (T "A.java") (T "Apache-2.0")
    (T "Lucimber UG")
  = Some (lines [ "/*";
                  " * SPDX-FileCopyrightText: 2021-2025 ";
                  " * SPDX-License-Identifier: GPL-3.0-only";
                  " */";
                  "*/";
                  "class A {}" ],
          non_spdx_converted)
  /\ search (spdx_pattern java_style)
       (lines [ "/*";
                " * SPDX-FileCopyrightText: 2021-2025 ";
                " * SPDX-License-Identifier: GPL-3.0-only";
                " */";
                "*/";
                "class A {}" ]) = None.
Proof. split; vm_compute; reflexivity. Qed.

(** C8, at a file the code breaks on.  The canonical pattern matches, the
    owner holds a backslash followed by g, and [sub] rejects the rendered
    header as a replacement: the resolver raises instead of returning. *)
Theorem resolver_raises_on_escape :
  (exists m, search (spdx_pattern python_style) header_with_bad_escape = Some m
             /\ group (spdx_pattern python_style) m "owner" = Some (T "Dev\group"))
  /\ parse_template (spdx_pattern python_style) None
       (format (header_template python_style) (T "2023-2025") (T "MIT") (T "Dev\group"))
     = None
  /\ update_or_insert_header 2025 header_with_bad_escape (T "run.py") (T "Apache-2.0")
       (T "Lucimber UG") = None
  /\ process_file 2025 header_with_bad_escape (T "run.py") (T "Apache-2.0")
       (T "Lucimber UG") true = None.
Proof.
  split; [|repeat split; vm_compute; reflexivity].
  eexists. split; vm_compute; reflexivity.
Qed.

(** * Further properties of the resolver *)

Lemma search_from_leftmost (pat : pattern) (s : text) :
  forall (pos : nat) (m : rmatch_obj),
  search_from pat pos s = Some m ->
  forall p, p < m_start m - pos -> match_here pat (skipn p s) = None.
Proof.
  induction s as [|c s IH]; intros pos m H p Hp; cbn [search_from] in H.
  - destruct (match_here pat []) as [[s' g]|]; [|discriminate].
    injection H as <-. cbn [m_start] in Hp. lia.
  - destruct (match_here pat (c :: s)) as [[s' g]|] eqn:E.
    + injection H as <-. cbn [m_start] in Hp. lia.
    + destruct p as [|p]; [exact E|].
      cbn [skipn]. apply (IH _ _ H). lia.
Qed.

(** X1.  What the canonical pattern matches is a rendered header: the
    leftmost place where the text reads as the template filled with a
    years string of the form YYYY or YYYY-YYYY and a non-empty owner and
    license without newline, which are the three captures. *)
Theorem canonical_match_is_rendered (t : file_type) (content : text) (m : rmatch_obj) :
  let pat := spdx_pattern (FILE_TYPE_PATTERNS t) in
  let tmpl := header_template (FILE_TYPE_PATTERNS t) in
  search pat content = Some m ->
  exists years license owner,
    group pat m "years" = Some years
    /\ group pat m "license" = Some license
    /\ group pat m "owner" = Some owner
    /\ m_text m = format tmpl years license owner
    /\ content = firstn (m_start m) content ++ m_text m ++ m_rest m
    /\ years_form years = true
    /\ owner <> [] /\ contains nl owner = false
    /\ license <> [] /\ contains nl license = false
    /\ (forall p, p < m_start m -> match_here pat (skipn p content) = None).
Proof.
  intros pat tmpl Hs.
  destruct (search_inv _ _ _ Hs) as [Hframe Hm].
  apply match_here_spdx_inv in Hm
    as (years & license & owner & Htext & Hcap & Hy & Ho & Hon & Hl & Hln).
  apply app_inv_tail in Htext.
  exists years, license, owner.
  assert (Hg : forall name i field,
             group_number pat name = Some i ->
             capture [(3, license); (2, owner); (1, years)] i = Some field ->
             group pat m name = Some field).
  { intros name i field Hn Hc. unfold group. now rewrite Hn, Hcap. }
  split; [apply (Hg _ 1); now destruct t|].
  split; [apply (Hg _ 3); now destruct t|].
  split; [apply (Hg _ 2); now destruct t|].
  repeat (split; [assumption|]).
  intros p Hp. apply (search_from_leftmost pat content 0 m Hs). lia.
Qed.

Lemma canonical_match_is_rendered_witness :
  exists m years license owner,
    search (spdx_pattern java_style) deep_file = Some m
    /\ m_start m = 800
    /\ m_text m = format (header_template java_style) years license owner
    /\ match_here (spdx_pattern java_style) (skipn 37 deep_file) = None.
Proof.
  destruct (search (spdx_pattern java_style) deep_file) as [m|] eqn:Hs;
    [|vm_compute in Hs; discriminate Hs].
  destruct (canonical_match_is_rendered java deep_file m Hs)
    as (years & license & owner & _ & _ & _ & Htext & _ & _ & _ & _ & _ & _ & Hleft).
  assert (Hstart : m_start m = 800)
    by (vm_compute in Hs; injection Hs as <-; reflexivity).
  exists m, years, license, owner.
  split; [reflexivity|]. split; [assumption|]. split; [assumption|].
  apply Hleft. rewrite Hstart. repeat constructor.
Defined.

(** X2.  Refreshing a canonical header whose owner and license hold no
    backslash puts the template, filled with the same owner and license
    and the updated years, in place of the leftmost match and leaves the
    text before and after it as it was. *)
Theorem refresh_replaces_span
        (Y : N) (content file_path fl fo years license owner : text) (m : rmatch_obj) :
  let pat := spdx_pattern (FILE_TYPE_PATTERNS (get_file_type file_path)) in
  let tmpl := header_template (FILE_TYPE_PATTERNS (get_file_type file_path)) in
  search pat content = Some m ->
  group pat m "years" = Some years ->
  group pat m "license" = Some license -> contains backslash license = false ->
  group pat m "owner" = Some owner -> contains backslash owner = false ->
  exists years',
    get_updated_years Y years = Some years'
    /\ content
       = firstn (m_start m) content ++ format tmpl years license owner ++ m_rest m
    /\ update_or_insert_header Y content file_path fl fo
       = Some (firstn (m_start m) content ++ format tmpl years' license owner
               ++ m_rest m,
               spdx_updated).
Proof.
  intros pat tmpl Hs Hgy Hgl Hlb Hgo Hob.
  destruct (refresh_frame Y content file_path fl fo m Hs)
    as (years0 & license0 & owner0 & years' & Hy0 & Hl0 & Ho0 & Htext & Hframe
        & Hup & Hres).
  fold pat in Hy0, Hl0, Ho0. fold tmpl in Htext, Hres.
  rewrite Hgy in Hy0. injection Hy0 as <-.
  rewrite Hgl in Hl0. injection Hl0 as <-.
  rewrite Hgo in Ho0. injection Ho0 as <-.
  exists years'. split; [assumption|]. split.
  - now rewrite <- Htext.
  - now apply Hres.
Qed.

Lemma refresh_replaces_span_witness :
  update_or_insert_header 2025 deep_file (T "src/A.java") (T "MIT") (T "Nobody")
  = Some (deep_file_refreshed, spdx_updated).
Proof.
  destruct (search (spdx_pattern java_style) deep_file) as [m|] eqn:Hs;
    [|vm_compute in Hs; discriminate Hs].
  pose proof Hs as Hm. vm_compute in Hm. injection Hm as Hm.
  destruct (refresh_replaces_span 2025 deep_file (T "src/A.java") (T "MIT") (T "Nobody")
              (T "2021") (T "Apache-2.0") (T "Lucimber UG") m Hs)
    as (years' & Hup & _ & Hres);
    [rewrite <- Hm; reflexivity | rewrite <- Hm; reflexivity | reflexivity
     | rewrite <- Hm; reflexivity | reflexivity |].
  vm_compute in Hup. injection Hup as <-.
  rewrite Hres, <- Hm. reflexivity.
Defined.

(** X5.  Converting a legacy header: when the canonical pattern matches
    nowhere, the leftmost legacy match is replaced by the template filled
    with the updated years, the trimmed owner and the normalized license,
    and the text before and after the match stays, provided the trimmed
    owner and the normalized license hold no backslash. *)
Theorem conversion_replaces_span
        (Y : N) (content file_path fl fo years raw_owner raw_license : text)
        (m : rmatch_obj) :
  let t := get_file_type file_path in
  let pat := non_spdx_pattern (FILE_TYPE_PATTERNS t) in
  let tmpl := header_template (FILE_TYPE_PATTERNS t) in
  search (spdx_pattern (FILE_TYPE_PATTERNS t)) content = None ->
  search pat content = Some m ->
  group pat m "years" = Some years ->
  group pat m "owner" = Some raw_owner ->
  contains backslash (strip raw_owner) = false ->
  group pat m "license" = Some raw_license ->
  contains backslash (normalize_license raw_license fl) = false ->
  exists years',
    get_updated_years Y years = Some years'
    /\ years_form years = true
    /\ content = firstn (m_start m) content ++ m_text m ++ m_rest m
    /\ update_or_insert_header Y content file_path fl fo
       = Some (firstn (m_start m) content
               ++ format tmpl years' (normalize_license raw_license fl)
                    (strip raw_owner)
               ++ m_rest m,
               non_spdx_converted).
Proof.
  intros t pat tmpl Hc Hs Hgy Hgo Hob Hgl Hlb.
  destruct (convert_frame Y content file_path fl fo m Hc Hs)
    as (years0 & owner0 & license0 & years' & Hy0 & Ho0 & Hl0 & Hframe & _
        & Hup & Hres).
  fold t in Hy0, Ho0, Hl0, Hres. fold pat in Hy0, Ho0, Hl0. fold tmpl in Hres.
  rewrite Hgy in Hy0. injection Hy0 as <-.
  rewrite Hgo in Ho0. injection Ho0 as <-.
  rewrite Hgl in Hl0. injection Hl0 as <-.
  exists years'. split; [assumption|]. split; [|split; [assumption|now apply Hres]].
  destruct (search_inv _ _ _ Hs) as [_ Hm].
  apply match_here_non_spdx_inv in Hm
    as (before & y & mid & o & after & l & _ & Hy & Hg2 & _).
  assert (E : group pat m "years" = capture (m_captures m) 2)
    by (subst pat; unfold group; now destruct t).
  rewrite E, Hg2 in Hgy. now injection Hgy as <-.
Qed.

Lemma conversion_replaces_span_witness :
  update_or_insert_header 2025 legacy_file (T "A.java") (T "Apache-2.0") (T "Nobody")
  = Some (legacy_file_converted, non_spdx_converted).
Proof.
  destruct (search (non_spdx_pattern java_style) legacy_file) as [m|] eqn:Hs;
    [|vm_compute in Hs; discriminate Hs].
  pose proof Hs as Hm. vm_compute in Hm. injection Hm as Hm.
  destruct (conversion_replaces_span 2025 legacy_file (T "A.java") (T "Apache-2.0")
              (T "Nobody") (T "2019") (T "Lucimber UG") (T "MIT") m)
    as (years' & Hup & _ & _ & Hres);
    [reflexivity | exact Hs | rewrite <- Hm; reflexivity
     | rewrite <- Hm; reflexivity | reflexivity
     | rewrite <- Hm; reflexivity | reflexivity |].
  vm_compute in Hup. injection Hup as <-.
  rewrite Hres, <- Hm. reflexivity.
Defined.

(** ** Years, run after run *)

Lemma endswith_app (a s : text) : endswith (a ++ s) s = true.
Proof.
  unfold endswith. rewrite length_app, Nat.add_sub.
  rewrite skipn_app, skipn_all, Nat.sub_diag. apply text_eqb_refl.
Qed.

Lemma endswith_cons (a s : text) (c : ascii) : endswith (a ++ c :: s) s = true.
Proof.
  replace (a ++ c :: s) with ((a ++ [c]) ++ s) by now rewrite <- app_assoc.
  apply endswith_app.
Qed.

Lemma updated_years_fixed (Y : N) (years years' : text) :
  years_form years = true ->
  get_updated_years Y years = Some years' ->
  get_updated_years Y years' = Some years'.
Proof.
  intros Hy Hup.
  apply years_form_cases in Hy as [Hy | (a & b & -> & Ha & Hb)].
  - apply year4_digits in Hy as [_ Hd].
    assert (Hh : contains "-" years = false) by now apply digits_lack.
    rewrite get_updated_years_single in Hup by assumption.
    injection Hup as <-.
    destruct (text_eqb years (str Y)) eqn:E.
    + rewrite get_updated_years_single by assumption. now rewrite E.
    + apply get_updated_years_range; [assumption | apply str_no_hyphen].
  - apply year4_digits in Ha as [_ Ha]. apply year4_digits in Hb as [_ Hb].
    rewrite get_updated_years_range in Hup by now apply digits_lack.
    injection Hup as <-.
    apply get_updated_years_range; [now apply digits_lack | apply str_no_hyphen].
Qed.

Lemma updated_years_end (Y : N) (years years' : text) :
  years_form years = true ->
  get_updated_years Y years = Some years' ->
  endswith years' (str Y) = true.
Proof.
  intros Hy Hup.
  apply years_form_cases in Hy as [Hy | (a & b & -> & Ha & Hb)].
  - apply year4_digits in Hy as [_ Hd].
    rewrite get_updated_years_single in Hup by now apply digits_lack.
    injection Hup as <-.
    destruct (text_eqb years (str Y)) eqn:E.
    + apply text_eqb_eq in E. rewrite E. apply (endswith_app []).
    + apply endswith_cons.
  - apply year4_digits in Ha as [_ Ha]. apply year4_digits in Hb as [_ Hb].
    rewrite get_updated_years_range in Hup by now apply digits_lack.
    injection Hup as <-. apply endswith_cons.
Qed.

(** X6.  Updating the years is idempotent, and the updated string ends
    with the current year: what one update returns, a second update
    in the same year returns unchanged. *)
Theorem get_updated_years_idempotent (Y : N) (years years' : text) :
  years_form years = true ->
  get_updated_years Y years = Some years' ->
  get_updated_years Y years' = Some years'
  /\ endswith years' (str Y) = true.
Proof.
  intros Hy Hup. split.
  - now apply (updated_years_fixed Y years).
  - now apply (updated_years_end Y years).
Qed.

Lemma get_updated_years_idempotent_witness :
  get_updated_years 2026 (T "2019-2026") = Some (T "2019-2026")
  /\ endswith (T "2019-2026") (str 2026) = true.
Proof.
  apply (get_updated_years_idempotent 2026 (T "2019-2023") (T "2019-2026"));
    reflexivity.
Defined.

Lemma year4_str (Y : N) : (1000 <= Y <= 9999)%N -> year4 (str Y) = true.
Proof.
  intros HY.
  assert (H : forallb (fun q =>
                forallb (fun r => year4 (str (1000 + 100 * N.of_nat q + N.of_nat r)))
                        (List.seq 0 100))
              (List.seq 0 90) = true)
    by (vm_compute; reflexivity).
  rewrite forallb_forall in H.
  pose proof (N.div_mod (Y - 1000) 100 ltac:(lia)) as Hdm.
  pose proof (N.mod_lt (Y - 1000) 100 ltac:(lia)) as Hr.
  assert (Hq : ((Y - 1000) / 100 < 90)%N)
    by (apply N.Div0.div_lt_upper_bound; lia).
  set (q := ((Y - 1000) / 100)%N) in *.
  set (r := ((Y - 1000) mod 100)%N) in *.
  clearbody q r.
  assert (Hin1 : In (N.to_nat q) (List.seq 0 90)) by (apply in_seq; lia).
  assert (Hin2 : In (N.to_nat r) (List.seq 0 100)) by (apply in_seq; lia).
  apply H in Hin1. rewrite forallb_forall in Hin1. apply Hin1 in Hin2.
  rewrite !N2Nat.id in Hin2.
  replace Y with (1000 + 100 * q + r)%N by lia.
  exact Hin2.
Qed.

Lemma updated_years_canonical (Y : N) (years years' : text) :
  (1000 <= Y <= 9999)%N ->
  years_form years = true ->
  get_updated_years Y years = Some years' ->
  years_form years' = true.
Proof.
  intros HY Hy Hup. pose proof (year4_str Y HY) as H4.
  apply years_form_cases in Hy as [Hy | (a & b & -> & Ha & Hb)].
  - pose proof (year4_digits _ Hy) as [_ Hd].
    rewrite get_updated_years_single in Hup by now apply digits_lack.
    injection Hup as <-.
    destruct (text_eqb years (str Y)).
    + now apply years_form_single.
    + now apply years_form_range.
  - pose proof (year4_digits _ Ha) as [_ Hda].
    pose proof (year4_digits _ Hb) as [_ Hdb].
    rewrite get_updated_years_range in Hup by now apply digits_lack.
    injection Hup as <-. now apply years_form_range.
Qed.

(** X7.  In a year of four digits the updated years keep the form YYYY or
    YYYY-YYYY that the patterns capture, and a range keeps the first
    four characters, its start year. *)
Theorem updated_years_keep_form (Y : N) (years years' : text) :
  (1000 <= Y <= 9999)%N ->
  years_form years = true ->
  get_updated_years Y years = Some years' ->
  years_form years' = true
  /\ firstn 4 years' = firstn 4 years.
Proof.
  intros HY Hy Hup. split; [now apply (updated_years_canonical Y years)|].
  apply years_form_cases in Hy as [Hy | (a & b & -> & Ha & Hb)].
  - pose proof (year4_digits _ Hy) as [Hlen Hd].
    rewrite get_updated_years_single in Hup by now apply digits_lack.
    injection Hup as <-.
    destruct (text_eqb years (str Y)); [reflexivity|].
    rewrite firstn_app, Hlen, Nat.sub_diag, firstn_O, app_nil_r.
    reflexivity.
  - pose proof (year4_digits _ Ha) as [Hlen Hda].
    pose proof (year4_digits _ Hb) as [_ Hdb].
    rewrite get_updated_years_range in Hup by now apply digits_lack.
    injection Hup as <-.
    now rewrite !firstn_app, Hlen, Nat.sub_diag, !firstn_O, !app_nil_r.
Qed.

Lemma updated_years_keep_form_witness :
  years_form (T "1999-2031") = true
  /\ firstn 4 (T "1999-2031") = firstn 4 (T "1999-2004").
Proof.
  apply (updated_years_keep_form 2031 (T "1999-2004") (T "1999-2031"));
    [lia | reflexivity | reflexivity].
Defined.

(** ** The second run *)

Lemma rendered_fixed_unchanged
      (Y : N) (file_path pre years license owner rest fl fo : text) (dry_run : bool) :
  let t := get_file_type file_path in
  let tmpl := header_template (FILE_TYPE_PATTERNS t) in
  contains (opener t) pre = false ->
  years_form years = true -> plain owner -> plain license ->
  get_updated_years Y years = Some years ->
  process_file Y (pre ++ format tmpl years license owner ++ rest) file_path fl fo dry_run
  = Some (unchanged, None).
Proof.
  intros t tmpl Hpre Hy Ho Hl Hfix.
  destruct (refresh_rendered Y file_path pre years license owner rest fl fo
              Hpre Hy Ho Hl) as (years' & Hup & Hres).
  fold t tmpl in Hres. rewrite Hfix in Hup. injection Hup as <-.
  unfold process_file. rewrite Hres. cbn [bind].
  now rewrite text_eqb_refl.
Qed.




(** X9.  A refreshed header is stable: a canonical header with plain
    owner and license, below a prefix free of the opening character, is
    refreshed by the first run, and a second run in the same year of four
    digits reports [unchanged] on the result. *)
Theorem refresh_then_unchanged
        (Y : N) (file_path pre years license owner rest fl fo : text) (dry_run : bool) :
  let t := get_file_type file_path in
  let tmpl := header_template (FILE_TYPE_PATTERNS t) in
  (1000 <= Y <= 9999)%N ->
  contains (opener t) pre = false ->
  years_form years = true -> plain owner -> plain license ->
  exists out,
    update_or_insert_header Y (pre ++ format tmpl years license owner ++ rest)
      file_path fl fo = Some (out, spdx_updated)
    /\ process_file Y out file_path fl fo dry_run = Some (unchanged, None).
Proof.
  intros t tmpl HY Hpre Hy Ho Hl.
  destruct (refresh_rendered Y file_path pre years license owner rest fl fo
              Hpre Hy Ho Hl) as (years' & Hup & Hres).
  fold t tmpl in Hres. eexists. split; [exact Hres|].
  apply rendered_fixed_unchanged; try assumption.
  - now apply (updated_years_canonical Y years).
  - now apply (updated_years_fixed Y years).
Qed.

Lemma refresh_then_unchanged_witness :
  exists out,
    update_or_insert_header 2025 deep_file (T "A.java") (T "MIT") (T "Nobody")
    = Some (out, spdx_updated)
    /\ process_file 2025 out (T "A.java") (T "MIT") (T "Nobody") false
       = Some (unchanged, None).
Proof.
  apply (refresh_then_unchanged 2025 (T "A.java") filler (T "2021") (T "Apache-2.0")
           (T "Lucimber UG") (nl :: T "class A {}") (T "MIT") (T "Nobody") false);
    try reflexivity; try lia; repeat split; discriminate.
Defined.







(** ** Paths without an extension *)

Lemma splitext_plain_name (dir name : text) :
  contains "." name = false -> contains "/" name = false ->
  snd (splitext (dir ++ "/"%char :: name)) = []
  /\ snd (splitext (dir ++ "/"%char :: "."%char :: name)) = []
  /\ snd (splitext name) = []
  /\ snd (splitext ("."%char :: name)) = [].
Proof.
  intros Hd Hs.
  pose proof (rfind_from_bound "." dir 0%Z (-1)%Z ltac:(lia)) as Hb.
  assert (Hsep : forall tail, contains "/" tail = false ->
                   rfind "/" (dir ++ "/"%char :: tail) = Z.of_nat (List.length dir)).
  { intros tail Ht. unfold rfind. rewrite rfind_from_app. cbn [rfind_from].
    rewrite Ascii.eqb_refl. now rewrite rfind_from_without. }
  repeat split.
  - unfold splitext. rewrite (Hsep name Hs).
    assert (Hdot : rfind "." (dir ++ "/"%char :: name) = rfind_from "." dir 0 (-1)).
    { unfold rfind. rewrite rfind_from_app. cbn [rfind_from].
      replace (Ascii.eqb "/" ".") with false by reflexivity.
      now rewrite rfind_from_without by assumption. }
    rewrite Hdot.
    replace (Z.of_nat (List.length dir) <? rfind_from "." dir 0 (-1))%Z with false
      by (symmetry; apply Z.ltb_ge; lia).
    reflexivity.
  - unfold splitext.
    rewrite (Hsep ("."%char :: name))
      by (unfold contains in *; cbn [existsb]; now rewrite Hs).
    assert (Hdot : rfind "." (dir ++ "/"%char :: "."%char :: name)
                   = (Z.of_nat (List.length dir) + 1)%Z).
    { unfold rfind. rewrite rfind_from_app. cbn [rfind_from].
      replace (Ascii.eqb "/" ".") with false by reflexivity.
      rewrite Ascii.eqb_refl. rewrite rfind_from_without by assumption. lia. }
    rewrite Hdot. unfold slice. rewrite Z.sub_diag.
    cbn [Z.to_nat firstn existsb]. now rewrite andb_false_r.
  - unfold splitext, rfind. rewrite !rfind_from_without by assumption.
    reflexivity.
  - unfold splitext, rfind. cbn [rfind_from].
    replace (Ascii.eqb "." "/") with false by reflexivity.
    rewrite Ascii.eqb_refl. rewrite !rfind_from_without by assumption.
    reflexivity.
Qed.

(** X12.  A path whose last component has no dot, or only the leading
    dot of a hidden file, has no extension and gets the Java style,
    whatever dots the directories before it hold; so a file named
    [.py] is not treated as a Python file. *)
Theorem get_file_type_without_extension (dir name : text) :
  contains "." name = false -> contains "/" name = false ->
  get_file_type (dir ++ "/"%char :: name) = java
  /\ get_file_type (dir ++ "/"%char :: "."%char :: name) = java
  /\ get_file_type name = java
  /\ get_file_type ("."%char :: name) = java.
Proof.
  intros Hd Hs.
  destruct (splitext_plain_name dir name Hd Hs) as (H1 & H2 & H3 & H4).
  unfold get_file_type. now rewrite H1, H2, H3, H4.
Qed.

Lemma get_file_type_without_extension_witness :
  get_file_type (T "conf.d/app.py/README") = java
  /\ get_file_type (T "conf.d/app.py/.py") = java.
Proof.
  destruct (get_file_type_without_extension (T "conf.d/app.py") (T "README")
              eq_refl eq_refl) as (H1 & _).
  destruct (get_file_type_without_extension (T "conf.d/app.py") (T "py")
              eq_refl eq_refl) as (_ & H2 & _).
  split; assumption.
Defined.

(** * Collecting files *)

Lemma endswith_iff (s suffix : text) :
  endswith s suffix = true <-> exists pre, s = pre ++ suffix.
Proof.
  split.
  - unfold endswith. intros H. apply text_eqb_eq in H.
    exists (firstn (List.length s - List.length suffix) s).
    rewrite <- H at 2. now rewrite firstn_skipn.
  - intros [pre ->]. apply endswith_app.
Qed.

Lemma join_ends (a b : text) : exists pre, join a b = pre ++ b.
Proof.
  unfold join. destruct (startswith b (T "/")).
  - now exists [].
  - destruct (text_eqb a [] || endswith a (T "/")).
    + now exists a.
    + exists (a ++ T "/"). now rewrite <- app_assoc.
Qed.

Lemma collect_files_in (walk : list walk_entry) (extensions : list text) (p : text) :
  In p (collect_files walk extensions true) <->
  exists dirpath dirnames filenames file,
    In (dirpath, dirnames, filenames) walk
    /\ In file filenames
    /\ existsb (endswith file) extensions = true
    /\ p = join dirpath file.
Proof.
  induction walk as [|[[dirpath dirnames] filenames] walk IH].
  - split; [intros [] | intros (? & ? & ? & ? & [] & _)].
  - cbn [collect_files negb]. rewrite in_app_iff, IH, in_map_iff. split.
    + intros [(file & <- & Hin) | (d & dn & fns & file & Hin & H)].
      * apply filter_In in Hin as [Hin Hext].
        exists dirpath, dirnames, filenames, file. repeat split; auto. now left.
      * exists d, dn, fns, file. split; [now right | assumption].
    + intros (d & dn & fns & file & [E | Hin] & Hf & Hext & ->).
      * injection E as <- <- <-. left. exists file. split; [reflexivity|].
        apply filter_In. now split.
      * right. exists d, dn, fns, file. repeat split; assumption.
Qed.

(** X13.  What [collect_files] returns.  With [recursive] set, a path is
    returned exactly when it is a directory of the walk joined with one
    of its file names that ends with one of the extensions; without it
    only the first entry of the walk, the root, is looked at.  Every
    path returned ends with one of the extensions, letter case and all. *)
Theorem collect_files_spec (walk : list walk_entry) (extensions : list text)
        (recursive : bool) (p : text) :
  (In p (collect_files walk extensions true) <->
   exists dirpath dirnames filenames file,
     In (dirpath, dirnames, filenames) walk
     /\ In file filenames
     /\ existsb (endswith file) extensions = true
     /\ p = join dirpath file)
  /\ collect_files walk extensions false
     = collect_files (firstn 1 walk) extensions true
  /\ (In p (collect_files walk extensions recursive) ->
      exists ext, In ext extensions /\ endswith p ext = true)
  /\ (extensions = [] -> collect_files walk extensions recursive = []).
Proof.
  assert (Hfirst : collect_files walk extensions false
                   = collect_files (firstn 1 walk) extensions true).
  { destruct walk as [|[[d dn] fns] walk]; [reflexivity|].
    cbn [collect_files firstn negb]. reflexivity. }
  split; [apply collect_files_in | split; [exact Hfirst | split]].
  - intros Hin.
    assert (Hin' : exists w, In p (collect_files w extensions true)).
    { destruct recursive; [now exists walk|].
      rewrite Hfirst in Hin. now exists (firstn 1 walk). }
    destruct Hin' as (w & Hw).
    apply collect_files_in in Hw as (d & dn & fns & file & _ & _ & Hext & ->).
    apply existsb_exists in Hext as (ext & Hext & Hend).
    exists ext. split; [assumption|].
    apply endswith_iff in Hend as (pre & ->).
    destruct (join_ends d (pre ++ ext)) as (pre' & ->).
    apply endswith_iff. exists (pre' ++ pre). now rewrite <- app_assoc.
  - intros ->. induction walk as [|[[d dn] fns] walk IH]; [reflexivity|].
    cbn [collect_files existsb].
    assert (Hnone : filter (fun _ : text => false) fns = [])
      by (clear; induction fns; auto).
    rewrite Hnone. cbn [map app].
    destruct recursive; cbn [negb]; [|reflexivity].
    apply IH. destruct walk as [|[[d' dn'] fns'] walk']; reflexivity.
Qed.

(** * The run *)

Lemma tally_total (st : stats) (r : change_type) :
  total (tally st r) = (total st + 1)%N
  /\ (n_spdx_updated (tally st r) + n_non_spdx_converted (tally st r)
      + n_header_inserted (tally st r) + n_unchanged (tally st r)
      = n_spdx_updated st + n_non_spdx_converted st + n_header_inserted st
        + n_unchanged st + 1)%N.
Proof. destruct r; cbn; split; lia. Qed.

Lemma tally_changes (st : stats) (r : change_type) :
  files_needing_update (tally st r)
  = (files_needing_update st + if match r with unchanged => true | _ => false end
                               then 0 else 1)%N.
Proof. destruct r; unfold files_needing_update; cbn; lia. Qed.

Lemma file_type_eqb_eq (a b : file_type) : file_type_eqb a b = true <-> a = b.
Proof. destruct a, b; cbn; split; congruence. Qed.

Lemma count_get_set (d : type_counts) (t t' : file_type) (v : N) :
  count_get (count_set d t v) t' = if file_type_eqb t t' then v else count_get d t'.
Proof.
  induction d as [|[k w] d IH]; cbn [count_set count_get].
  - reflexivity.
  - destruct (file_type_eqb k t) eqn:E; cbn [count_get]; rewrite ?IH;
      destruct k, t, t'; cbn [file_type_eqb] in *; try discriminate; reflexivity.
Qed.

Lemma process_all_counts (Y : N) (fl fo : text) (dry_run : bool) (paths : list text) :
  forall (fs fs' : disk) (st st' : stats) (ft ft' : type_counts),
  process_all Y fl fo dry_run paths fs st ft = Some (fs', st', ft') ->
  total st' = (total st + N.of_nat (List.length paths))%N
  /\ (n_spdx_updated st' + n_non_spdx_converted st' + n_header_inserted st'
      + n_unchanged st'
      = n_spdx_updated st + n_non_spdx_converted st + n_header_inserted st
        + n_unchanged st + N.of_nat (List.length paths))%N
  /\ forall t, count_get ft' t
               = (count_get ft t + N.of_nat (List.length (filter (of_type t) paths)))%N.
Proof.
  induction paths as [|p paths IH]; intros fs fs' st st' ft ft' H;
    cbn [process_all] in H.
  - injection H as <- <- <-. cbn. repeat split; lia.
  - destruct (process_path Y fs p fl fo dry_run) as [[ct fs1]|]; [|discriminate].
    cbn [bind fst snd] in H. apply IH in H as (Ht & Hsum & Hcount).
    destruct (tally_total st ct) as [Ht1 Hs1].
    cbn [List.length filter]. repeat split; try lia.
    intros t. rewrite Hcount, count_get_set. unfold of_type at 2.
    destruct (file_type_eqb (get_file_type p) t) eqn:E; cbn [List.length];
      [apply file_type_eqb_eq in E; rewrite E|]; lia.
Qed.

Lemma types_partition (paths : list text) :
  List.length (filter (of_type java) paths)
  + List.length (filter (of_type python) paths)
  + List.length (filter (of_type xml) paths)
  = List.length paths.
Proof.
  induction paths as [|p paths IH]; [reflexivity|].
  cbn [filter].
  assert (H : forall t, of_type t p = file_type_eqb (get_file_type p) t)
    by reflexivity.
  rewrite !H.
  destruct (get_file_type p); cbn [file_type_eqb List.length]; lia.
Qed.

(** X15.  The counters of a run add up: the total is the number of
    collected paths and also the sum of the four outcome counters, and
    the count kept for each file type is the number of collected paths of
    that type. *)
Theorem run_counts_add_up (Y : N) (fl fo : text) (dry_run : bool)
        (paths : list text) (fs fs' : disk) (st : stats) (ft : type_counts) :
  process_all Y fl fo dry_run paths fs zero_stats [] = Some (fs', st, ft) ->
  total st = N.of_nat (List.length paths)
  /\ (n_spdx_updated st + n_non_spdx_converted st + n_header_inserted st
      + n_unchanged st = total st)%N
  /\ (forall t, count_get ft t = N.of_nat (List.length (filter (of_type t) paths)))
  /\ (count_get ft java + count_get ft python + count_get ft xml = total st)%N.
Proof.
  intros H. apply process_all_counts in H as (Ht & Hsum & Hcount).
  cbn in Ht, Hsum.
  assert (Hc : forall t, count_get ft t
                         = N.of_nat (List.length (filter (of_type t) paths)))
    by (intros t; now rewrite Hcount).
  repeat split; try lia; try assumption.
  rewrite !Hc, Ht. pose proof (types_partition paths). lia.
Qed.

Lemma run_counts_add_up_witness :
  exists fs' st ft,
    process_all 2025 (T "MIT") (T "Acme Co") true [T "src/new.py"; T "src/done.py"]
      sample_disk zero_stats [] = Some (fs', st, ft)
    /\ total st = 2%N
    /\ (n_spdx_updated st + n_non_spdx_converted st + n_header_inserted st
        + n_unchanged st = total st)%N.
Proof.
  destruct (process_all 2025 (T "MIT") (T "Acme Co") true
              [T "src/new.py"; T "src/done.py"] sample_disk zero_stats [])
    as [[[fs' st] ft]|] eqn:H; [|vm_compute in H; discriminate H].
  exists fs', st, ft. split; [reflexivity|].
  destruct (run_counts_add_up _ _ _ _ _ _ _ _ _ H) as (Ht & Hsum & _).
  split; assumption.
Defined.








Lemma process_file_dry (Y : N) (original file_path fl fo : text)
      (ct : change_type) (w : option text) :
  process_file Y original file_path fl fo true = Some (ct, w) -> w = None.
Proof.
  unfold process_file.
  destruct (update_or_insert_header Y original file_path fl fo) as [[u c]|];
    [|discriminate].
  cbn [bind]. destruct (negb (text_eqb original u)); intros H;
    now injection H as _ <-.
Qed.

Lemma process_path_dry (Y : N) (fs fs' : disk) (p fl fo : text) (ct : change_type) :
  process_path Y fs p fl fo true = Some (ct, fs') ->
  fs' = fs
  /\ exists original,
       read fs p = Some original
       /\ process_file Y original p fl fo true = Some (ct, None).
Proof.
  unfold process_path. intros H.
  destruct (read fs p) as [original|] eqn:Hread; [|discriminate]. cbn [bind] in H.
  destruct (process_file Y original p fl fo true) as [[c w]|] eqn:Hp;
    [|discriminate].
  pose proof (process_file_dry _ _ _ _ _ _ _ Hp) as ->.
  cbn [bind fst snd] in H. injection H as <- <-.
  split; [reflexivity|]. now exists original.
Qed.

Lemma process_all_dry (Y : N) (fl fo : text) (paths : list text) :
  forall (fs fs' : disk) (st st' : stats) (ft ft' : type_counts),
  process_all Y fl fo true paths fs st ft = Some (fs', st', ft') ->
  fs' = fs
  /\ (files_needing_update st <= files_needing_update st')%N
  /\ (files_needing_update st' = files_needing_update st
      <-> Forall (quiet Y fl fo fs) paths).
Proof.
  induction paths as [|p paths IH]; intros fs fs' st st' ft ft' H;
    cbn [process_all] in H.
  - injection H as <- <- <-. repeat split; auto; lia.
  - destruct (process_path Y fs p fl fo true) as [[ct fs1]|] eqn:Hp;
      [|discriminate].
    cbn [bind fst snd] in H.
    apply process_path_dry in Hp as (-> & original & Hread & Hfile).
    apply IH in H as (-> & Hle & Hiff).
    rewrite tally_changes in Hle, Hiff.
    split; [reflexivity|]. split.
    + destruct ct; lia.
    + split.
      * intros Heq. constructor.
        -- exists original. split; [assumption|].
           destruct ct; try lia. exact Hfile.
        -- apply Hiff. destruct ct; lia.
      * intros Hall. inversion Hall as [|? ? (o & Ho & Hq) Hrest]; subst.
        rewrite Hread in Ho. injection Ho as <-.
        rewrite Hfile in Hq. injection Hq as ->.
        apply Hiff in Hrest. lia.
Qed.

Lemma process_all_untouched (Y : N) (fl fo : text) (dry_run : bool)
      (paths : list text) :
  forall (fs fs' : disk) (st st' : stats) (ft ft' : type_counts) (q : text),
  process_all Y fl fo dry_run paths fs st ft = Some (fs', st', ft') ->
  ~ In q paths -> fs' q = fs q.
Proof.
  induction paths as [|p paths IH]; intros fs fs' st st' ft ft' q H Hq;
    cbn [process_all] in H.
  - now injection H as <- _ _.
  - destruct (process_path Y fs p fl fo dry_run) as [[ct fs1]|] eqn:Hp;
      [|discriminate].
    cbn [bind fst snd] in H.
    rewrite (IH _ _ _ _ _ _ q H) by (intros Hin; apply Hq; now right).
    unfold process_path in Hp.
    destruct (read fs p) as [original|]; [|discriminate]. cbn [bind] in Hp.
    destruct (process_file Y original p fl fo dry_run) as [[c w]|];
      [|discriminate].
    cbn [bind fst snd] in Hp. injection Hp as _ <-.
    destruct w as [u|]; [|reflexivity].
    unfold write. assert (Hne : q <> p) by (intros ->; apply Hq; now left).
    apply text_eqb_neq in Hne. now rewrite Hne.
Qed.

Lemma main_inv (Y : N) (a : args) (walk : list walk_entry) (fs fs' : disk)
      (st : stats) (code : N) :
  main Y a walk fs = Some (fs', st, code) ->
  exists fs1 ft,
    process_all Y (a_fallback_license a) (a_fallback_owner a) (a_dry_run a)
      (collected a walk) fs zero_stats [] = Some (fs1, st, ft)
    /\ (forall q, a_summary_file a <> Some q -> fs' q = fs1 q)
    /\ code = (if a_dry_run a && (0 <? files_needing_update st)%N then 1 else 0)%N.
Proof.
  unfold main, collected. intros H.
  destruct (process_all _ _ _ _ _ _ _ _) as [[[fs1 st1] ft]|]; [|discriminate].
  cbn [bind] in H. injection H as <- <- <-.
  exists fs1, ft. split; [reflexivity|]. split; [|reflexivity].
  intros q Hq. destruct (a_summary_file a) as [[|c name]|]; try reflexivity.
  unfold write. assert (Hne : q <> c :: name) by congruence.
  apply text_eqb_neq in Hne. now rewrite Hne.
Qed.

(** X16.  A dry run leaves the disk as it found it: no file other than
    the summary file, if one was asked for, has another content after
    [main] than before. *)
Theorem dry_run_keeps_disk (Y : N) (a : args) (walk : list walk_entry)
        (fs fs' : disk) (st : stats) (code : N) :
  a_dry_run a = true ->
  main Y a walk fs = Some (fs', st, code) ->
  (forall q, a_summary_file a <> Some q -> fs' q = fs q)
  /\ (a_summary_file a = None -> forall q, fs' q = fs q).
Proof.
  intros Hdry H. apply main_inv in H as (fs1 & ft & Hall & Hsum & _).
  rewrite Hdry in Hall. apply process_all_dry in Hall as (-> & _).
  split; [assumption|].
  intros Hnone q. apply Hsum. rewrite Hnone. discriminate.
Qed.

Lemma dry_run_keeps_disk_witness :
  exists fs' st code,
    main 2025 (sample_args true) sample_walk sample_disk = Some (fs', st, code)
    /\ fs' (T "src/new.py") = Some (T "x = 1").
Proof.
  destruct (main 2025 (sample_args true) sample_walk sample_disk)
    as [[[fs' st] code]|] eqn:H; [|vm_compute in H; discriminate H].
  exists fs', st, code. split; [reflexivity|].
  destruct (dry_run_keeps_disk 2025 (sample_args true) sample_walk sample_disk
              fs' st code eq_refl H) as [_ Hq].
  now rewrite Hq.
Defined.

(** X18.  A run writes only to the paths it collected and to the summary
    file: every other file has the content it had. *)
Theorem run_touches_collected_only (Y : N) (a : args) (walk : list walk_entry)
        (fs fs' : disk) (st : stats) (code : N) (q : text) :
  main Y a walk fs = Some (fs', st, code) ->
  ~ In q (collect_files walk (map normalize_extension (a_extensions a))
            (a_recursive a)) ->
  a_summary_file a <> Some q ->
  fs' q = fs q.
Proof.
  intros H Hq Hsum. apply main_inv in H as (fs1 & ft & Hall & Hs & _).
  rewrite (Hs q Hsum).
  now apply (process_all_untouched _ _ _ _ _ _ _ _ _ _ _ q Hall).
Qed.

Lemma run_touches_collected_only_witness :
  exists fs' st code,
    main 2025 (sample_args false) sample_walk sample_disk = Some (fs', st, code)
    /\ fs' (T "src/gen/skipped.py") = sample_disk (T "src/gen/skipped.py").
Proof.
  destruct (main 2025 (sample_args false) sample_walk sample_disk)
    as [[[fs' st] code]|] eqn:H; [|vm_compute in H; discriminate H].
  exists fs', st, code. split; [reflexivity|].
  apply (run_touches_collected_only 2025 (sample_args false) sample_walk
           sample_disk fs' st code _ H).
  - cbn. intros [E|[E|[]]]; apply text_eqb_eq in E; discriminate E.
  - discriminate.
Defined.

(** X17.  The exit status.  In write mode [main] exits with 0.  In a dry
    run it exits with 0 exactly when every collected file is reported
    unchanged, and with 1 otherwise. *)
Theorem exit_status (Y : N) (a : args) (walk : list walk_entry)
        (fs fs' : disk) (st : stats) (code : N) :
  main Y a walk fs = Some (fs', st, code) ->
  (code = 0 \/ code = 1)%N
  /\ (a_dry_run a = false -> code = 0%N)
  /\ (a_dry_run a = true ->
      (code = 0%N <->
       Forall (quiet Y (a_fallback_license a) (a_fallback_owner a) fs)
              (collect_files walk (map normalize_extension (a_extensions a))
                 (a_recursive a)))).
Proof.
  intros H. apply main_inv in H as (fs1 & ft & Hall & _ & ->).
  split; [destruct (a_dry_run a && _); auto|].
  split; [now intros ->|].
  intros Hdry. rewrite Hdry in *. cbn [andb].
  apply process_all_dry in Hall as (_ & _ & Hiff).
  change (files_needing_update zero_stats) with 0%N in Hiff.
  fold (collected a walk). rewrite <- Hiff.
  destruct (0 <? files_needing_update st)%N eqn:E.
  - apply N.ltb_lt in E. split; [discriminate | lia].
  - apply N.ltb_ge in E. split; [lia | reflexivity].
Qed.

Lemma exit_status_witness :
  exists fs' st code,
    main 2025 (sample_args true) sample_walk sample_disk = Some (fs', st, code)
    /\ (code = 0 \/ code = 1)%N.
Proof.
  destruct (main 2025 (sample_args true) sample_walk sample_disk)
    as [[[fs' st] code]|] eqn:H; [|vm_compute in H; discriminate H].
  exists fs', st, code. split; [reflexivity|].
  apply (exit_status 2025 (sample_args true) sample_walk sample_disk fs' st code H).
Defined.

(** * The summary *)

Lemma count_set_keys (d : type_counts) (t : file_type) (v : N) :
  map fst (count_set d t v)
  = if existsb (fun item => file_type_eqb (fst item) t) d
    then map fst d else map fst d ++ [t].
Proof.
  induction d as [|[k w] d IH]; [reflexivity|].
  cbn [count_set existsb fst]. destruct (file_type_eqb k t); cbn [orb map fst].
  - reflexivity.
  - rewrite IH. now destruct (existsb _ d).
Qed.

Lemma count_set_well_kept (d : type_counts) (t : file_type) (v : N) :
  well_kept d -> v <> 0%N -> well_kept (count_set d t v).
Proof.
  intros [Hnd Hpos] Hv. split.
  - rewrite count_set_keys.
    destruct (existsb (fun item => file_type_eqb (fst item) t) d) eqn:E;
      [assumption|].
    apply NoDup_app; [assumption | repeat constructor; intros [] |].
    intros k Hk [E'|[]]. subst k.
    apply in_map_iff in Hk as ([k' w] & Hkk & Hin). cbn [fst] in Hkk. subst k'.
    assert (Hex : existsb (fun item => file_type_eqb (fst item) t) d = true).
    { apply existsb_exists. exists (t, w). split; [assumption|].
      now apply file_type_eqb_eq. }
    congruence.
  - clear Hnd. induction d as [|[k w] d IH]; cbn [count_set].
    + repeat constructor. exact Hv.
    + inversion Hpos; subst. destruct (file_type_eqb k t).
      * constructor; assumption.
      * constructor; [assumption | now apply IH].
Qed.

Lemma process_all_well_kept (Y : N) (fl fo : text) (dry_run : bool)
      (paths : list text) :
  forall (fs fs' : disk) (st st' : stats) (ft ft' : type_counts),
  well_kept ft ->
  process_all Y fl fo dry_run paths fs st ft = Some (fs', st', ft') ->
  well_kept ft'.
Proof.
  induction paths as [|p paths IH]; intros fs fs' st st' ft ft' Hft H;
    cbn [process_all] in H.
  - now injection H as _ _ <-.
  - destruct (process_path Y fs p fl fo dry_run) as [[ct fs1]|]; [|discriminate].
    cbn [bind fst snd] in H. apply IH in H; [assumption|].
    apply count_set_well_kept; [assumption | lia].
Qed.

Lemma sorted_items_well_kept (d : type_counts) :
  well_kept d ->
  sorted_items d
  = filter seen [ (java, count_get d java); (python, count_get d python);
                  (xml, count_get d xml) ].
Proof.
  intros [Hnd Hpos].
  destruct d as [|[k1 v1] [|[k2 v2] [|[k3 v3] [|[k4 v4] d]]]];
    cbn [map fst] in Hnd;
    repeat match goal with
           | H : Forall _ (_ :: _) |- _ =>
               apply Forall_cons_iff in H as [? H]
           end;
    cbn [snd] in *;
    repeat match goal with
           | H : NoDup (_ :: _) |- _ => apply NoDup_cons_iff in H as [? H]
           end;
    repeat match goal with
           | k : file_type |- _ => destruct k
           end;
    try (exfalso; cbn [In] in *; tauto);
    repeat match goal with
           | v : N |- _ => destruct v; [congruence|]
           end;
    reflexivity.
Qed.

Lemma sorted_items_by_name (a b c : N) :
  sorted_items (filter seen [(java, a); (python, b); (xml, c)])
  = filter seen [(java, a); (python, b); (xml, c)].
Proof. destruct a, b, c; reflexivity. Qed.

(** X20.  The file types of the summary come in the order of their
    names, java, python, xml, whatever the order in which the run met
    them: each type with one collected file at least has one line, with
    the number of collected files of that type. *)
Theorem summary_type_order (Y : N) (fl fo : text) (dry_run : bool)
        (paths : list text) (fs fs' : disk) (st : stats) (ft : type_counts) :
  process_all Y fl fo dry_run paths fs zero_stats [] = Some (fs', st, ft) ->
  let by_name :=
    filter seen
      (map (fun t => (t, N.of_nat (List.length (filter (of_type t) paths))))
           [java; python; xml]) in
  sorted_items ft = by_name
  /\ format_summary st dry_run ft = format_summary st dry_run by_name.
Proof.
  intros H by_name.
  assert (Hkept : well_kept ft).
  { assert (Hnil : well_kept []) by (split; constructor).
    exact (process_all_well_kept _ _ _ _ _ _ _ _ _ _ _ Hnil H). }
  apply process_all_counts in H as (_ & _ & Hcount).
  assert (Hsorted : sorted_items ft = by_name).
  { rewrite (sorted_items_well_kept ft Hkept), !Hcount. reflexivity. }
  split; [assumption|].
  unfold format_summary. rewrite Hsorted.
  subst by_name. cbn [map]. now rewrite sorted_items_by_name.
Qed.

Lemma summary_type_order_witness :
  exists fs' st ft,
    process_all 2025 (T "MIT") (T "Acme Co") true
      [T "a.xml"; T "src/new.py"; T "b.java"; T "src/done.py"]
      (fun q => if text_eqb q (T "a.xml") || text_eqb q (T "b.java")
                then Some [] else sample_disk q)
      zero_stats [] = Some (fs', st, ft)
    /\ map fst ft = [xml; python; java]
    /\ sorted_items ft = [(java, 1%N); (python, 2%N); (xml, 1%N)].
Proof.
  destruct (process_all 2025 (T "MIT") (T "Acme Co") true
              [T "a.xml"; T "src/new.py"; T "b.java"; T "src/done.py"]
              (fun q => if text_eqb q (T "a.xml") || text_eqb q (T "b.java")
                        then Some [] else sample_disk q)
              zero_stats [])
    as [[[fs' st] ft]|] eqn:H; [|vm_compute in H; discriminate H].
  exists fs', st, ft. split; [reflexivity|].
  destruct (summary_type_order _ _ _ true _ _ _ _ _ H) as [Hs _].
  split; [|exact Hs].
  vm_compute in H. now injection H as _ _ <-.
Defined.

(** * Extensions on the command line *)

Lemma normalize_extension_dot (e : text) :
  normalize_extension ("."%char :: e) = "."%char :: e.
Proof. reflexivity. Qed.

Lemma normalize_extension_idempotent (e : text) :
  normalize_extension (normalize_extension e) = normalize_extension e.
Proof.
  unfold normalize_extension.
  destruct (startswith e (T ".")) eqn:E; [now rewrite E | reflexivity].
Qed.

(** X14.  An extension may be given with or without its dot: [main]
    does for [py] what it does for [.py].  Every extension it matches
    file names against starts with a dot, and one that has the dot is
    taken as it is. *)
Theorem extension_dot_optional (Y : N) (a : args) (walk : list walk_entry)
        (fs : disk) (e : text) :
  main Y a walk fs
  = main Y (with_extensions a (map normalize_extension (a_extensions a))) walk fs
  /\ startswith (normalize_extension e) (T ".") = true
  /\ normalize_extension (T "." ++ e) = T "." ++ e
  /\ (startswith e (T ".") = false -> normalize_extension e = T "." ++ e).
Proof.
  split; [|split; [|split]].
  - unfold main, with_extensions. cbn [a_extensions a_recursive a_fallback_license
      a_fallback_owner a_dry_run a_summary_file].
    rewrite map_map.
    now rewrite (map_ext _ _ (fun x => normalize_extension_idempotent x)).
  - unfold normalize_extension. destruct (startswith e (T ".")) eqn:E;
      [assumption | reflexivity].
  - apply normalize_extension_dot.
  - unfold normalize_extension. now intros ->.
Qed.

(** * Files without a canonical header *)

Lemma rmatch_lit_caseless_inv {A : Type} (l : text) :
  forall (s : text) (g : captures) (k : text -> captures -> option A) (a : A),
  rmatch true (lit l) s g k = Some a ->
  exists u rest,
    s = u ++ rest /\ lower u = lower l /\ k rest g = Some a.
Proof.
  induction l as [|c l IH]; intros s g k a H.
  - now exists [], s.
  - assert (Hc : forall k', rmatch true (Chr c) s g k' = Some a ->
                            exists x s', s = x :: s'
                                         /\ lower_char x = lower_char c
                                         /\ k' s' g = Some a).
    { intros k' Hk. cbn [rmatch chr_matches] in Hk.
      destruct s as [|x s]; [discriminate|].
      destruct (Ascii.eqb (lower_char x) (lower_char c)) eqn:E; [|discriminate].
      apply Ascii.eqb_eq in E. now exists x, s. }
    destruct l as [|c' l].
    + apply Hc in H as (x & s' & -> & Hx & H). exists [x], s'.
      unfold lower. cbn [map app]. now rewrite Hx.
    + destruct (Hc (fun s' g' => rmatch true (lit (c' :: l)) s' g' k) H)
        as (x & s' & -> & Hx & H').
      apply IH in H' as (u & rest & -> & Hu & H').
      exists (x :: u), rest. unfold lower in *.
      change (map lower_char (x :: u)) with (lower_char x :: map lower_char u).
      rewrite Hx, Hu. repeat split. exact H'.
Qed.

Lemma rmatch_repeat_inv {A : Type} (ic lazy : bool) (lo : nat) (hi : option nat)
      (p : ascii -> bool) (s : text) (g : captures)
      (k : text -> captures -> option A) (a : A) :
  rmatch ic (Repeat lazy lo hi p) s g k = Some a ->
  exists run rest,
    s = run ++ rest /\ within hi (List.length run) /\ k rest g = Some a.
Proof.
  cbn [rmatch]. destruct lazy; intros H.
  - apply rep_lazy_inv in H as (run & rest & -> & _ & _ & Hhi & H).
    now exists run, rest.
  - apply rep_greedy_inv in H as (run & rest & -> & _ & _ & Hhi & H).
    now exists run, rest.
Qed.

Lemma rmatch_word_inv {A : Type} (i : nat) (w1 w2 s : text) (g : captures)
      (k : text -> captures -> option A) (a : A) :
  rmatch true (Group i (Alt (lit w1) (lit w2))) s g k = Some a ->
  exists u rest, s = u ++ rest /\ (lower u = lower w1 \/ lower u = lower w2).
Proof.
  cbn [rmatch]. intros H.
  destruct (rmatch true (lit w1) s g
              (fun s' g' => k s' ((i, span s s') :: g'))) as [a'|] eqn:E.
  - apply rmatch_lit_caseless_inv in E as (u & rest & -> & Hu & _).
    exists u, rest. auto.
  - apply rmatch_lit_caseless_inv in H as (u & rest & -> & Hu & _).
    exists u, rest. auto.
Qed.

Lemma lower_length (s : text) : List.length (lower s) = List.length s.
Proof. apply length_map. Qed.

Lemma rmatch_legacy_head (op s rest : text) (g : captures) :
  rmatch true (legacy_shape op) s [] (fun s' g' => Some (s', g')) = Some (rest, g) ->
  word_near s (List.length op) = true.
Proof.
  unfold legacy_shape, non_spdx_tail. cbn [seq]. intros H.
  split_cat H. apply rmatch_lit_caseless_inv in H as (u1 & s1 & -> & Hu1 & H).
  cbv beta in H.
  split_cat H. apply rmatch_repeat_inv in H as (u2 & s2 & -> & Hu2 & H).
  cbv beta in H. cbn [within] in Hu2.
  split_cat H. apply rmatch_word_inv in H as (u3 & s3 & -> & Hu3).
  assert (Hlen : List.length u1 = List.length op)
    by (rewrite <- (lower_length u1), Hu1; apply lower_length).
  unfold word_near. apply existsb_exists. exists (List.length u2).
  split; [apply in_seq; lia|].
  rewrite <- Hlen.
  replace (skipn (List.length u1 + List.length u2) (u1 ++ u2 ++ u3 ++ s3))
    with (u3 ++ s3).
  2:{ rewrite Nat.add_comm, <- skipn_skipn.
      rewrite skipn_app, skipn_all, Nat.sub_diag. cbn [app skipn].
      now rewrite skipn_app, skipn_all, Nat.sub_diag. }
  destruct Hu3 as [Hu3|Hu3].
  - assert (Hl : List.length u3 = 9)
      by (rewrite <- (lower_length u3), Hu3; reflexivity).
    rewrite <- Hl at 1.
    rewrite firstn_app, Nat.sub_diag, firstn_all, firstn_O, app_nil_r, Hu3.
    reflexivity.
  - assert (Hl : List.length u3 = 3)
      by (rewrite <- (lower_length u3), Hu3; reflexivity).
    rewrite <- Hl at 2.
    rewrite (firstn_app (List.length u3)), Nat.sub_diag, firstn_all, firstn_O,
      app_nil_r, Hu3.
    apply orb_true_r.
Qed.

Lemma no_word_near_header (t : file_type) (z : text) :
  word_near (style_open t ++ z) (List.length (legacy_open t)) = false.
Proof. destruct t; vm_compute; reflexivity. Qed.

Lemma parse_template_plain_prefix (pat : pattern) (p r : text) :
  contains backslash p = false ->
  parse_template pat None (p ++ r)
  = option_map (app (map TLit p)) (parse_template pat None r).
Proof.
  unfold contains. induction p as [|c p IH]; cbn [existsb app]; intros H.
  - now destruct (parse_template pat None r).
  - apply orb_false_iff in H as [Hc Hp].
    cbn [parse_template map]. rewrite Ascii.eqb_sym, Hc. cbn [negb].
    rewrite (IH Hp). unfold cons_piece.
    now destruct (parse_template pat None r).
Qed.

Lemma style_open_plain (t : file_type) : contains backslash (style_open t) = false.
Proof. now destruct t. Qed.

Lemma sub_first_header_differs (t : file_type) (years license owner content updated : text) :
  sub_first (non_spdx_pattern (FILE_TYPE_PATTERNS t))
    (format (header_template (FILE_TYPE_PATTERNS t)) years license owner) content
  = Some updated ->
  search (non_spdx_pattern (FILE_TYPE_PATTERNS t)) content <> None ->
  updated <> content.
Proof.
  intros Hsub Hfound Heq. subst updated. unfold sub_first in Hsub.
  rewrite format_shape in Hsub. unfold header_shape in Hsub.
  rewrite parse_template_plain_prefix in Hsub by apply style_open_plain.
  destruct (parse_template _ None _) as [tpl|]; [|discriminate].
  cbn [option_map] in Hsub.
  destruct (search _ content) as [m|] eqn:Hs; [|now apply Hfound].
  injection Hsub as Hsub.
  destruct (search_inv _ _ _ Hs) as [Hframe Hm].
  rewrite Hframe in Hsub at 2.
  apply app_inv_head in Hsub.
  unfold expand_template in Hsub.
  rewrite map_app, concat_app in Hsub.
  fold (expand_template m (map TLit (style_open t))) in Hsub.
  rewrite expand_template_plain in Hsub.
  unfold match_here in Hm.
  destruct (non_spdx_pattern_shape t) as (Hr & Hi & _).
  rewrite Hr, Hi, <- Hsub in Hm.
  apply rmatch_legacy_head in Hm.
  rewrite <- app_assoc in Hm.
  now rewrite no_word_near_header in Hm.
Qed.

(** X11.  A file without a canonical header never passes as unchanged:
    when the canonical pattern matches nowhere, [process_file] reports a
    conversion or an insertion, and in write mode it writes a text that
    differs from the old one. *)
Theorem changed_without_canonical (Y : N) (content file_path fl fo : text)
        (ct : change_type) (w : option text) :
  search (spdx_pattern (FILE_TYPE_PATTERNS (get_file_type file_path))) content = None ->
  process_file Y content file_path fl fo false = Some (ct, w) ->
  (ct = non_spdx_converted \/ ct = header_inserted)
  /\ exists updated, w = Some updated /\ updated <> content.
Proof.
  intros Hs H. unfold process_file, update_or_insert_header in H.
  set (t := get_file_type file_path) in *. rewrite Hs in H.
  destruct (search (non_spdx_pattern (FILE_TYPE_PATTERNS t)) content) as [m|] eqn:Hn.
  - destruct (group _ m "years") as [existing|]; [|discriminate]. cbn [bind] in H.
    destruct (get_updated_years Y existing) as [years|]; [|discriminate].
    cbn [bind] in H.
    destruct (group _ m "owner") as [raw_owner|]; [|discriminate]. cbn [bind] in H.
    destruct (group _ m "license") as [raw_license|]; [|discriminate].
    cbn [bind] in H.
    destruct (sub_first _ _ content) as [updated|] eqn:Hsub; [|discriminate].
    cbn [bind] in H.
    assert (Hd : updated <> content).
    { apply (sub_first_header_differs t _ _ _ _ _ Hsub). now rewrite Hn. }
    assert (E : text_eqb content updated = false)
      by (apply text_eqb_neq; congruence).
    rewrite E in H. cbn [negb] in H. injection H as <- <-.
    split; [now left|]. now exists updated.
  - cbn [bind] in H. rewrite longer_differs in H. cbn [negb] in H.
    injection H as <- <-. split; [now right|].
    eexists. split; [reflexivity|].
    intros E. apply (f_equal (@List.length ascii)) in E.
    rewrite length_app in E. cbn [List.length] in E. lia.
Qed.

Lemma changed_without_canonical_witness :
  exists ct updated,
    process_file 2025 legacy_file (T "A.java") (T "MIT") (T "Nobody") false
    = Some (ct, Some updated)
    /\ (ct = non_spdx_converted \/ ct = header_inserted)
    /\ updated <> legacy_file.
Proof.
  destruct (process_file 2025 legacy_file (T "A.java") (T "MIT") (T "Nobody") false)
    as [[ct w]|] eqn:H; [|vm_compute in H; discriminate H].
  destruct (changed_without_canonical 2025 legacy_file (T "A.java") (T "MIT")
              (T "Nobody") ct w eq_refl H) as (Hct & updated & -> & Hd).
  now exists ct, updated.
Defined.

Lemma same_year_unchanged_witness :
  process_file 2025
    (lines [ "#"; "# SPDX-FileCopyrightText: 2019-2025 Acme Co";
             "# SPDX-License-Identifier: MIT"; "#"; ""; "y = 2" ])
    (T "src/done.py") (T "Apache-2.0") (T "Nobody") false
  = Some (unchanged, None).
Proof.
  destruct (search (spdx_pattern python_style)
              (lines [ "#"; "# SPDX-FileCopyrightText: 2019-2025 Acme Co";
                       "# SPDX-License-Identifier: MIT"; "#"; ""; "y = 2" ]))
    as [m|] eqn:Hs; [|vm_compute in Hs; discriminate Hs].
  pose proof Hs as Hm. vm_compute in Hm. injection Hm as Hm.
  apply (same_year_unchanged 2025 _ (T "src/done.py") (T "Apache-2.0") (T "Nobody")
           (T "2019-2025") (T "MIT") (T "Acme Co") m false);
    [exact Hs | rewrite <- Hm; reflexivity | reflexivity
     | rewrite <- Hm; reflexivity | reflexivity
     | rewrite <- Hm; reflexivity | reflexivity].
Defined.

Lemma resolver_returns_without_backslash_witness :
  exists updated change,
    update_or_insert_header 2025 legacy_file (T "A.java") (T "Apache-2.0") (T "Nobody")
    = Some (updated, change).
Proof.
  apply (resolver_returns_without_backslash 2025 legacy_file (T "A.java")
           (T "Apache-2.0") (T "Nobody")); reflexivity.
Defined.
